(** * PSMPChecker: a shallow embedding of [src/main.py]

    The program is a sequence of host checks.  Every check reads the host
    (a command's output, a file, the package database) and applies string
    matching to what it read.  The embedding keeps the two apart: what the
    host answers is a field of a record the functions take as an argument,
    and what the program does with the answer is a function translated
    from the source, statement by statement.

    Python [str] values are modelled by [string]; a character is a code
    point below 256.  Exceptions are values of [exn]; a function that can
    raise returns an [outcome].  The file tree holds the archive the log
    collection writes, and the support matrix is the value [json.load]
    returns, of whatever shape. *)

From Stdlib Require Import ZArith Lia Bool Ascii.
From Stdlib Require String.
From Stdlib Require Import Floats.SpecFloat.
From stdpp Require Import base option list gmap strings.

Local Open Scope Z_scope.

(** ** The [str] methods the program calls *)

Module Py.

(** [s.startswith(p)] *)
Fixpoint startswith (s p : string) {struct p} : bool :=
  match p with
  | "" => true
  | String a p' =>
      match s with
      | "" => false
      | String b s' => if Ascii.eqb a b then startswith s' p' else false
      end
  end.

(** [needle in hay] *)
Fixpoint contains (hay needle : string) : bool :=
  if startswith hay needle then true
  else match hay with
       | "" => false
       | String _ hay' => contains hay' needle
       end.

(** [c.isspace()] for a code point below 256: TAB, LF, VT, FF, CR, the
    four separators FS, GS, RS, US, the space, NEL and the no-break
    space. *)
Definition isspace (c : ascii) : bool :=
  let n := N_of_ascii c in
  ((9 <=? n) && (n <=? 13) || (28 <=? n) && (n <=? 32)
   || (n =? 133) || (n =? 160))%N.

Fixpoint lstrip (s : string) : string :=
  match s with
  | "" => ""
  | String c s' => if isspace c then lstrip s' else s
  end.

Fixpoint rstrip (s : string) : string :=
  match s with
  | "" => ""
  | String c s' =>
      match rstrip s' with
      | "" => if isspace c then "" else String c ""
      | r => String c r
      end
  end.

(** [s.strip()] *)
Definition strip (s : string) : string := rstrip (lstrip s).

(** [c.lower()] for a code point below 256: the letters A to Z and the
    accented capitals 192 to 222 (the multiplication sign 215 apart)
    lie 32 below their small forms. *)
Definition lower_char (c : ascii) : ascii :=
  let n := N_of_ascii c in
  if ((65 <=? n) && (n <=? 90)
      || (192 <=? n) && (n <=? 222) && negb (n =? 215))%N
  then ascii_of_N (n + 32) else c.

(** [s.lower()] *)
Fixpoint lower (s : string) : string :=
  match s with
  | "" => ""
  | String c s' => String (lower_char c) (lower s')
  end.

(** Puts a character in front of the first string of a list. *)
Definition push (c : ascii) (l : list string) : list string :=
  match l with
  | [] => [String c ""]
  | h :: t => String c h :: t
  end.

(** [s.split(sep)] for a separator of one character. *)
Fixpoint split (sep : ascii) (s : string) : list string :=
  match s with
  | "" => [""]
  | String c s' =>
      if Ascii.eqb c sep then "" :: split sep s' else push c (split sep s')
  end.

(** [s.split(sep, maxsplit)] for a separator of one character. *)
Fixpoint splitn (sep : ascii) (s : string) (maxsplit : nat) : list string :=
  match s with
  | "" => [""]
  | String c s' =>
      match maxsplit with
      | O => [s]
      | S n' =>
          if Ascii.eqb c sep then "" :: splitn sep s' n'
          else push c (splitn sep s' maxsplit)
      end
  end.

(** What a file opened in text mode hands over for the text [s] stored
    in it: a carriage return with the line feed after it, and a carriage
    return alone, each become one line feed.  [after_cr] tells that the
    character before was a carriage return. *)
Fixpoint translate_newlines (after_cr : bool) (s : string) : string :=
  match s with
  | "" => ""
  | String c s' =>
      if Ascii.eqb c "013" then String "010" (translate_newlines true s')
      else if Ascii.eqb c "010" && after_cr then translate_newlines false s'
      else String c (translate_newlines false s')
  end.

Definition universal_newlines (s : string) : string :=
  translate_newlines false s.

(** [s.splitlines(keepends=True)] for a text whose only line ends are
    line feeds: each line keeps its line feed, the last one has none
    when the text does not end in one. *)
Fixpoint keepends (s : string) : list string :=
  match s with
  | "" => []
  | String c s' =>
      if Ascii.eqb c "010" then String c "" :: keepends s'
      else push c (keepends s')
  end.

(** The lines [for line in file] yields for a file opened in text mode
    that stores [s]: a line ends at a line feed, at a carriage return,
    or at the two in a row, and ends in a line feed in each case. *)
Definition readlines (s : string) : list string :=
  keepends (universal_newlines s).

End Py.

(** ** The support matrix *)

(** The matrix of the data model is a dict from version keys to rules.
    One entry of a rule's ['supported_distributions'] list: the code
    reads ['versions'] with [.get('versions', [])], so the key may be
    absent. *)
Record distro_info := {
  name : string;
  versions : option (list string)
}.

(** The value stored under a version key. *)
Record psmp_rule := {
  supported_distributions : list distro_info
}.

(** What [json.load] returns for a file, whatever its shape: [None], a
    bool, an int, a float, a str, a list, or a dict, whose keys are
    strings, distinct, and kept in the order of the file. *)
Local Unset Elimination Schemes.
Inductive json :=
  | JNull
  | JBool (b : bool)
  | JInt (n : Z)
  | JFloat (x : spec_float)
  | JString (s : string)
  | JArray (elements : list json)
  | JObject (members : list (string * json)).
Local Set Elimination Schemes.

(** The matrix of the data model as [json.load] returns it. *)
Definition distro_to_json (d : distro_info) : json :=
  JObject (("name", JString (name d))
           :: match versions d with
              | Some vs => [("versions", JArray (JString <$> vs))]
              | None => []
              end).

Definition rule_to_json (rule : psmp_rule) : json :=
  JObject [("supported_distributions",
            JArray (distro_to_json <$> supported_distributions rule))].

Definition to_json (psmp_versions : gmap string psmp_rule) : json :=
  JObject ((fun kv => (kv.1, rule_to_json kv.2)) <$> map_to_list psmp_versions).

(** ** Exceptions, results and the host *)

Inductive exn_class :=
  | CalledProcessError
  | FileNotFoundError
  | FileExistsError
  | IsADirectoryError
  | NotADirectoryError
  | PermissionError
  | OSError
  | IndexError
  | KeyError
  | TypeError
  | AttributeError
  | ValueError
  | JSONDecodeError.

Global Instance exn_class_eq_dec : EqDecision exn_class.
Proof. solve_decision. Defined.

(** An exception: its class and the text [str(e)] gives. *)
Record exn := Exn { exn_cls : exn_class; exn_str : string }.

Inductive outcome (A : Type) :=
  | Ret (a : A)
  | Raise (e : exn).
Arguments Ret {A} a.
Arguments Raise {A} e.

(** What an [except] clause names: one class, or [Exception]. *)
Inductive except_clause :=
  | Only (cls : exn_class)
  | AnyException.

Definition catches (c : except_clause) (e : exn) : bool :=
  match c with
  | Only cls => bool_decide (exn_cls e = cls)
  | AnyException => true
  end.

(** A node of the file tree. *)
Inductive node :=
  | File (content : string)
  | Dir.

(** The calls into the operating system that can fail for a reason the
    file tree does not show (permissions, a full disk, an I/O error).
    [ZipOpen] is the creation of the archive file, which fails before
    anything is written (the current directory cannot be written to, or
    the name is taken by something that is not a file); [ZipWrite] is
    the writing of its members, which fails with the file created. *)
Inductive os_call :=
  | Open (path : string)
  | Makedirs (path : string)
  | Copytree (src dst : string)
  | Copy (src dst : string)
  | ZipOpen (zip_filename : string)
  | ZipWrite (zip_filename : string).

(** What the program cannot change: the command line, what the commands
    it runs answer, the distribution's metadata, the date, and the
    failures of the operating system. *)
Record host := {
  argv : list string;
  (** [subprocess.check_output(cmd, ...)]: the command's output, or the
      exception it raises ([CalledProcessError] on a non-zero status). *)
  check_output : string -> outcome string;
  (** [load_psmp_versions_json('src/versions.json')]: the value
      [json.load] returns, or the exception the load raises. *)
  versions_json : outcome json;
  (** [distro.version(best=True)] and [distro.name()] *)
  distro_version_best : string;
  distro_name_ : string;
  (** [datetime.datetime.now().strftime("%m.%d.%y")] *)
  strftime_now : string;
  (** [os.getcwd()]: the directory a relative file name is created in. *)
  getcwd : string;
  (** The bytes [zipfile] stores for the members given, each a path in
      the archive with the content of the file. *)
  zip_bytes : list (string * string) -> string;
  (** The bytes an archive file is left with when a write into it
      fails. *)
  zip_leftover : string;
  io_fault : os_call -> option exn;
  (** The paths a removal fails on. *)
  undeletable : gset string
}.

(** What the program changes: the file tree (absolute paths), and
    standard output (the lines printed so far, oldest first).  An archive
    is a file of the tree; [archives] records, under the file name given
    to [zipfile.ZipFile], the members of each archive that was written
    to its end, which the bytes in the tree do not show. *)
Record world := {
  fs : gmap string node;
  archives : gmap string (list (string * string));
  stdout : list string
}.

Definition io (A : Type) : Type := world -> world * outcome A.

Definition ret {A} (a : A) : io A := fun w => (w, Ret a).

Definition raise {A} (e : exn) : io A := fun w => (w, Raise e).

Definition bind {A B} (m : io A) (k : A -> io B) : io B :=
  fun w =>
    match m w with
    | (w', Ret a) => k a w'
    | (w', Raise e) => (w', Raise e)
    end.

Notation "x <- m ;; k" := (bind m (fun x => k))
  (at level 100, m at next level, right associativity).
Notation "m ;; k" := (bind m (fun _ => k))
  (at level 100, right associativity).

Definition lift {A} (r : outcome A) : io A := fun w => (w, r).

(** [try: body  except clause as e: handler] *)
Definition try_except {A} (body : io A) (clause : except_clause)
    (handler : exn -> io A) : io A :=
  fun w =>
    match body w with
    | (w', Ret a) => (w', Ret a)
    | (w', Raise e) => if catches clause e then handler e w' else (w', Raise e)
    end.

(** [try: body  finally: cleanup] *)
Definition try_finally {A} (body : io A) (cleanup : io unit) : io A :=
  fun w =>
    match body w with
    | (w', r) =>
        match cleanup w' with
        | (w'', Ret _) => (w'', r)
        | (w'', Raise e) => (w'', Raise e)
        end
    end.

(** The world after the lines [lines] were printed. *)
Definition say (lines : list string) (w : world) : world :=
  {| fs := fs w; archives := archives w; stdout := stdout w ++ lines |}.

(** [print(line)] *)
Definition print (line : string) : io unit :=
  fun w => (say [line] w, Ret tt).

Definition set_fs (f : gmap string node) (w : world) : world :=
  {| fs := f; archives := archives w; stdout := stdout w |}.

(** ** Paths and the errors of the operating system *)

(** [repr(s)] for a str without a quote, a backslash or a control
    character, as are all the paths and keys the program names. *)
Definition quoted (s : string) : string := "'" +:+ s +:+ "'".

(** [str(e)] for an [OSError] with a file name. *)
Definition os_error (cls : exn_class) (errno strerror path : string) : exn :=
  Exn cls ("[Errno " +:+ errno +:+ "] " +:+ strerror +:+ ": " +:+ quoted path).

Definition no_such_file (path : string) : exn :=
  os_error FileNotFoundError "2" "No such file or directory" path.

Definition file_exists (path : string) : exn :=
  os_error FileExistsError "17" "File exists" path.

Definition not_a_directory (path : string) : exn :=
  os_error NotADirectoryError "20" "Not a directory" path.

Definition is_a_directory (path : string) : exn :=
  os_error IsADirectoryError "21" "Is a directory" path.

(** The directories above [s], nearest to the root first. *)
Fixpoint ancestors (acc s : string) : list string :=
  match s with
  | "" => []
  | String c s' =>
      (if Ascii.eqb c "/" && negb (String.eqb acc "") then [acc] else [])
      ++ ancestors (acc +:+ String c "") s'
  end.

Definition is_file (f : gmap string node) (p : string) : bool :=
  match f !! p with
  | Some (File _) => true
  | _ => false
  end.

Definition isdir (f : gmap string node) (p : string) : bool :=
  match f !! p with
  | Some Dir => true
  | _ => false
  end.

(** [with open(path, "r") as f: f.read()]: the text of the file, with
    its line ends as text mode gives them.  A path that leads through a
    regular file is not a missing file. *)
Definition read_text (h : host) (path : string) : io string :=
  fun w =>
    match io_fault h (Open path) with
    | Some e => (w, Raise e)
    | None =>
        match fs w !! path with
        | Some (File content) => (w, Ret (Py.universal_newlines content))
        | Some Dir => (w, Raise (is_a_directory path))
        | None =>
            if existsb (is_file (fs w)) (ancestors "" path)
            then (w, Raise (not_a_directory path))
            else (w, Raise (no_such_file path))
        end
    end.

(** ** [is_supported] *)

(** The function on a matrix of the data model.  On such a matrix none
    of its look-ups can fail; what the function does with a loaded file
    of any other shape is [Json.is_supported] further down, which
    returns what this one returns on the matrices of the data model. *)

Section Compatibility.

(** A dict from version keys to rules. *)
Implicit Types psmp_versions : gmap string psmp_rule.

(** [for supported_version in distro_info.get('versions', [])] *)
Fixpoint for_supported_version (distro_version : string)
    (vs : list string) : bool :=
  match vs with
  | [] => false
  | supported_version :: vs' =>
      if Py.startswith distro_version supported_version then true
      else for_supported_version distro_version vs'
  end.

(** [for distro_info in psmp_versions[version]['supported_distributions']] *)
Fixpoint for_distro_info (distro_name distro_version : string)
    (ds : list distro_info) : bool :=
  match ds with
  | [] => false
  | d :: ds' =>
      if String.eqb (Py.lower (name d)) (Py.lower distro_name) then
        if for_supported_version distro_version (default [] (versions d))
        then true
        else for_distro_info distro_name distro_version ds'
      else for_distro_info distro_name distro_version ds'
  end.

(** [for version in psmp_versions], over the dict's items. *)
Fixpoint for_version (psmp_version distro_name distro_version : string)
    (items : list (string * psmp_rule)) : bool :=
  match items with
  | [] => false
  | (version, rule) :: items' =>
      if Py.startswith version psmp_version then
        if for_distro_info distro_name distro_version
             (supported_distributions rule)
        then true
        else for_version psmp_version distro_name distro_version items'
      else for_version psmp_version distro_name distro_version items'
  end.

Definition is_supported psmp_versions
    (psmp_version distro_name distro_version : string) : bool :=
  match psmp_versions !! psmp_version with
  | None => false
  | Some _ =>
      for_version psmp_version distro_name distro_version
        (map_to_list psmp_versions)
  end.

End Compatibility.

(** [p] is a prefix of [s]. *)
Definition is_prefix_of (p s : string) : Prop := exists t, s = p +:+ t.

(** Two names are equal when case is ignored. *)
Definition same_name (a b : string) : Prop := Py.lower a = Py.lower b.

(** The condition the compatibility lookup searches for: a key that starts
    with the installed version, under it an entry for the distribution,
    and in that entry a prefix of the distribution's version. *)
Definition has_matching_rule (psmp_versions : gmap string psmp_rule)
    (psmp_version distro_name distro_version : string) : Prop :=
  exists key rule d sv,
    psmp_versions !! key = Some rule /\
    is_prefix_of psmp_version key /\
    d ∈ supported_distributions rule /\
    same_name (name d) distro_name /\
    sv ∈ default [] (versions d) /\
    is_prefix_of sv distro_version.

(** ** [is_supported] on the loaded value *)

(** The program hands [is_supported] what [json.load] returned, of any
    shape.  The operations below are those of the function's body on
    such a value; each raises what Python raises when the value is not
    of the type the operation needs (the texts are CPython 3.11's). *)

Definition and_then {A B} (r : outcome A) (k : A -> outcome B) : outcome B :=
  match r with
  | Ret a => k a
  | Raise e => Raise e
  end.

Module Json.

(** [type(j).__name__] *)
Definition type_name (j : json) : string :=
  match j with
  | JNull => "NoneType"
  | JBool _ => "bool"
  | JInt _ => "int"
  | JFloat _ => "float"
  | JString _ => "str"
  | JArray _ => "list"
  | JObject _ => "dict"
  end.

(** The value a dict holds under [key]. *)
Fixpoint assoc (key : string) (members : list (string * json)) : option json :=
  match members with
  | [] => None
  | (k, v) :: members' => if String.eqb k key then Some v else assoc key members'
  end.

(** [j == x] for a str [x] *)
Definition equals (x : string) (j : json) : bool :=
  match j with
  | JString s => String.eqb s x
  | _ => false
  end.

(** [x in j] for a str [x]: a key of a dict, an element of a list, a
    part of a str. *)
Definition contains (j : json) (x : string) : outcome bool :=
  match j with
  | JObject members => Ret (bool_decide (is_Some (assoc x members)))
  | JArray elements => Ret (existsb (equals x) elements)
  | JString s => Ret (Py.contains s x)
  | _ => Raise (Exn TypeError ("argument of type '" +:+ type_name j
                               +:+ "' is not iterable"))
  end.

(** The characters of a str, each a str. *)
Fixpoint chars (s : string) : list json :=
  match s with
  | "" => []
  | String c s' => JString (String c "") :: chars s'
  end.

(** What [for x in j] runs over: the keys of a dict, the elements of a
    list, the characters of a str. *)
Definition iter (j : json) : outcome (list json) :=
  match j with
  | JObject members => Ret (JString <$> members.*1)
  | JArray elements => Ret elements
  | JString s => Ret (chars s)
  | _ => Raise (Exn TypeError ("'" +:+ type_name j
                               +:+ "' object is not iterable"))
  end.

(** [j[key]] for a str [key] *)
Definition getitem (j : json) (key : string) : outcome json :=
  match j with
  | JObject members =>
      match assoc key members with
      | Some v => Ret v
      | None => Raise (Exn KeyError (quoted key))
      end
  | JArray _ =>
      Raise (Exn TypeError "list indices must be integers or slices, not str")
  | JString _ =>
      Raise (Exn TypeError "string indices must be integers, not 'str'")
  | _ => Raise (Exn TypeError ("'" +:+ type_name j
                               +:+ "' object is not subscriptable"))
  end.

(** [j.get(key, fallback)] *)
Definition get (j : json) (key : string) (fallback : json) : outcome json :=
  match j with
  | JObject members => Ret (default fallback (assoc key members))
  | _ => Raise (Exn AttributeError ("'" +:+ type_name j
                                    +:+ "' object has no attribute 'get'"))
  end.

(** The str [j] is, for the call [j.method(...)] of a method of str:
    the values [json.load] returns that are not a str have neither
    [startswith] nor [lower]. *)
Definition str_receiver (j : json) (method : string) : outcome string :=
  match j with
  | JString s => Ret s
  | _ => Raise (Exn AttributeError
                  ("'" +:+ type_name j +:+ "' object has no attribute '"
                   +:+ method +:+ "'"))
  end.

(** [s.startswith(j)] for a str [s] *)
Definition is_prefix (s : string) (j : json) : outcome bool :=
  match j with
  | JString p => Ret (Py.startswith s p)
  | _ => Raise (Exn TypeError
                  ("startswith first arg must be str or a tuple of str, not "
                   +:+ type_name j))
  end.

(** [for supported_version in distro_info.get('versions', [])]: [true]
    when the function returned [True] from inside the loop. *)
Fixpoint for_supported_version (distro_version : string) (vs : list json)
    : outcome bool :=
  match vs with
  | [] => Ret false
  | supported_version :: vs' =>
      and_then (is_prefix distro_version supported_version) (fun found =>
      if found then Ret true
      else for_supported_version distro_version vs')
  end.

(** [for distro_info in psmp_versions[version]['supported_distributions']] *)
Fixpoint for_distro_info (distro_name distro_version : string)
    (ds : list json) : outcome bool :=
  match ds with
  | [] => Ret false
  | distro_info :: ds' =>
      and_then (getitem distro_info "name") (fun distro_info_name =>
      and_then (str_receiver distro_info_name "lower") (fun distro_info_name =>
      if String.eqb (Py.lower distro_info_name) (Py.lower distro_name) then
        and_then (get distro_info "versions" (JArray [])) (fun vs =>
        and_then (iter vs) (fun vs =>
        and_then (for_supported_version distro_version vs) (fun found =>
        if found then Ret true
        else for_distro_info distro_name distro_version ds')))
      else for_distro_info distro_name distro_version ds'))
  end.

(** [for version in psmp_versions] *)
Fixpoint for_version (psmp_versions : json)
    (psmp_version distro_name distro_version : string)
    (keys : list json) : outcome bool :=
  match keys with
  | [] => Ret false
  | version :: keys' =>
      and_then (str_receiver version "startswith") (fun version =>
      if Py.startswith version psmp_version then
        and_then (getitem psmp_versions version) (fun rule =>
        and_then (getitem rule "supported_distributions") (fun ds =>
        and_then (iter ds) (fun ds =>
        and_then (for_distro_info distro_name distro_version ds) (fun found =>
        if found then Ret true
        else for_version psmp_versions psmp_version distro_name
               distro_version keys'))))
      else for_version psmp_versions psmp_version distro_name
             distro_version keys')
  end.

Definition is_supported (psmp_versions : json)
    (psmp_version distro_name distro_version : string) : outcome bool :=
  and_then (contains psmp_versions psmp_version) (fun present =>
  if negb present then Ret false
  else
    and_then (iter psmp_versions) (fun keys =>
    for_version psmp_versions psmp_version distro_name distro_version keys)).

End Json.

(** ** [get_installed_psmp_version] *)

(** [a, b, _ = parts]: the text of the [ValueError] for a list of the
    wrong length. *)
Definition unpack_error (got : nat) : exn :=
  Exn ValueError
    (match got with
     | 1%nat => "not enough values to unpack (expected 3, got 1)"
     | 2%nat => "not enough values to unpack (expected 3, got 2)"
     | _ => "too many values to unpack (expected 3)"
     end).

(** The body of [if result:]: the version is the second field between
    dashes, its first two components between dots are the result. *)
Definition extract_main_version (result : string) : outcome string :=
  match Py.split "-" result !! 1%nat with
  | None => Raise (Exn IndexError "list index out of range")
  | Some version =>
      match Py.splitn "." version 2 with
      | [major; minor; _] => Ret (major +:+ "." +:+ minor)
      | parts => Raise (unpack_error (length parts))
      end
  end.

(** The function returns [None] where the Python function does, also
    when it falls off its end ([result] empty). *)
Definition get_installed_psmp_version (h : host) : io (option string) :=
  try_except
    (out <- lift (check_output h "rpm -qa | grep -i cark") ;;
     let result := Py.strip out in
     if bool_decide (result = "") then ret None
     else (main_version <- lift (extract_main_version result) ;;
           ret (Some main_version)))
    (Only CalledProcessError)
    (fun _ => ret None).

(** ** [get_linux_distribution] *)

(** [f"{major}.{minor}"] from [version_info]; [version_parts[0]] exists
    because [split] never returns an empty list. *)
Definition main_version_of (version_info : string) : string :=
  let version_parts := Py.split "." version_info in
  let major := hd "" version_parts in
  let minor :=
    if (1 <? Z.of_nat (length version_parts)) then nth 1 version_parts ""
    else "0" in
  major +:+ "." +:+ minor.

Definition get_linux_distribution (h : host) : string * string :=
  (distro_name_ h, main_version_of (distro_version_best h)).

(** ** [check_services_status] *)

Definition PSMPConsole_log : string := "/var/opt/CARKpsmp/logs/PSMPConsole.log".

(** The first [try] block: the entry for ["psmpsrv"]. *)
Definition check_psmpsrv (h : host) (service_statuses : gmap string string)
    : io (gmap string string) :=
  try_except
    (result_psmpsrv <- lift (check_output h "systemctl status psmpsrv") ;;
     if Py.contains result_psmpsrv "Active: active" then
       (log_content <- read_text h PSMPConsole_log ;;
        if Py.contains log_content "is up and working with Vault" then
          ret (<["psmpsrv" := "Running and communicating with Vault"]>
                 service_statuses)
        else
          ret (<["psmpsrv" := "Running but not communicating with Vault"]>
                 service_statuses))
     else if Py.contains result_psmpsrv "Active: inactive" then
       ret (<["psmpsrv" := "Inactive"]> service_statuses)
     else
       ret (<["psmpsrv" := "Inactive"]> service_statuses))
    (Only CalledProcessError)
    (fun _ => ret (<["psmpsrv" := "Inactive"]> service_statuses)).

(** The second [try] block: the entry for ["sshd"]. *)
Definition check_sshd (h : host) (service_statuses : gmap string string)
    : io (gmap string string) :=
  try_except
    (result_sshd <- lift (check_output h "systemctl status sshd") ;;
     if Py.contains result_sshd "Active: active" then
       ret (<["sshd" := "Running"]> service_statuses)
     else if Py.contains result_sshd "Active: inactive" then
       ret (<["sshd" := "Inactive"]> service_statuses)
     else
       ret (<["sshd" := "Inactive"]> service_statuses))
    (Only CalledProcessError)
    (fun _ => ret (<["sshd" := "Inactive"]> service_statuses)).

Definition check_services_status (h : host) : io (gmap string string) :=
  let service_statuses : gmap string string := ∅ in
  service_statuses <- check_psmpsrv h service_statuses ;;
  service_statuses <- check_sshd h service_statuses ;;
  ret service_statuses.

(** ** Python's [float]: binary64, parsed from and printed as decimals *)

(** The double nearest to [num / den] (ties to even), for [0 <= num] and
    [0 < den]: what [float(s)] is for a decimal [s] of that value. *)
Definition float_of_ratio (num den : Z) : spec_float :=
  match num, den with
  | Z0, _ => S754_zero false
  | Zpos n, Zpos d =>
      SFdiv 53 1024 (S754_finite false n 0) (S754_finite false d 0)
  | _, _ => S754_nan
  end.

Definition isdigit (c : ascii) : bool :=
  let n := N_of_ascii c in ((48 <=? n) && (n <=? 57))%N.

(** [int(s)] for a string of digits. *)
Fixpoint int_of_digits (acc : Z) (s : string) : Z :=
  match s with
  | "" => acc
  | String c s' => int_of_digits (10 * acc + (Z.of_N (N_of_ascii c) - 48)) s'
  end.

Fixpoint str_of_Z_go (fuel : nat) (n : Z) (acc : string) : string :=
  match fuel with
  | O => acc
  | S fuel' =>
      let acc' := String (ascii_of_N (48 + Z.to_N (n mod 10))) acc in
      if n <? 10 then acc' else str_of_Z_go fuel' (n / 10) acc'
  end.

(** [str(n)] for [0 <= n]. *)
Definition str_of_Z (n : Z) : string :=
  str_of_Z_go (S (Z.to_nat (Z.log2 n))) n "".

Fixpoint zeros (n : nat) : string :=
  match n with
  | O => ""
  | S n' => String "0" (zeros n')
  end.

Fixpoint take (n : nat) (s : string) : string :=
  match n, s with
  | S n', String c s' => String c (take n' s')
  | _, _ => ""
  end.

Fixpoint drop (n : nat) (s : string) : string :=
  match n, s with
  | S n', String _ s' => drop n' s'
  | _, _ => s
  end.

Fixpoint rstrip_zeros (s : string) : string :=
  match s with
  | "" => ""
  | String c s' =>
      match rstrip_zeros s' with
      | "" => if Ascii.eqb c "0" then "" else String c ""
      | r => String c r
      end
  end.

(** The least [j >= 1] with [den <= num * 10^j], for [0 < num < den]. *)
Fixpoint small_exponent (fuel : nat) (num den j : Z) : Z :=
  match fuel with
  | O => j
  | S fuel' =>
      if den <=? num * 10 then j
      else small_exponent fuel' (num * 10) den (j + 1)
  end.

(** The position of the decimal point: the [k] with
    [10^(k-1) <= num/den < 10^k]. *)
Definition decimal_point (num den : Z) : Z :=
  if den <=? num then Z.of_nat (String.length (str_of_Z (num / den)))
  else 1 - small_exponent (S (Z.to_nat (Z.log2 den))) num den 1.

(** The [n]-digit decimal that reads back as [x], when there is one: of
    the two [n]-digit neighbours of [num/den], one that reads back as [x],
    the nearer when both do. *)
Definition digits_that_round_trip (x : spec_float) (num den k n : Z)
    : option Z :=
  let up := 10 ^ Z.max 0 (n - k) in
  let down := 10 ^ Z.max 0 (k - n) in
  let (q, r) := Z.div_eucl (num * up) (den * down) in
  let ok d := SFeqb (float_of_ratio (d * down) up) x in
  if r =? 0 then (if ok q then Some q else None)
  else
    match ok q, ok (q + 1) with
    | true, true =>
        Some (match 2 * r ?= den * down with
              | Lt => q
              | Gt => q + 1
              | Eq => if Z.even q then q else q + 1
              end)
    | true, false => Some q
    | false, true => Some (q + 1)
    | false, false => None
    end.

(** The shortest digits that read back as [x], with their length. *)
Fixpoint shortest_digits (fuel : nat) (x : spec_float) (num den k n : Z)
    : Z * Z :=
  match fuel with
  | O => (fst (Z.div_eucl (num * 10 ^ Z.max 0 (n - k))
                          (den * 10 ^ Z.max 0 (k - n))), n)
  | S fuel' =>
      match digits_that_round_trip x num den k n with
      | Some d => (d, n)
      | None => shortest_digits fuel' x num den k (n + 1)
      end
  end.

(** [repr] lays the digits out with an exponent when the decimal point
    lies more than 16 places to the right of the first digit or more than
    3 to its left, and in positional notation otherwise. *)
Definition layout (ds : string) (decpt : Z) : string :=
  let len := Z.of_nat (String.length ds) in
  if (decpt <=? -4) || (16 <? decpt) then
    let e := decpt - 1 in
    let mantissa :=
      match ds with
      | String c "" => String c ""
      | String c rest => String c ("." +:+ rest)
      | "" => ""
      end in
    let digits := str_of_Z (Z.abs e) in
    mantissa +:+ "e" +:+ (if e <? 0 then "-" else "+")
      +:+ (if Z.abs e <? 10 then "0" else "") +:+ digits
  else if decpt <=? 0 then
    "0." +:+ zeros (Z.to_nat (- decpt)) +:+ ds
  else if len <=? decpt then
    ds +:+ zeros (Z.to_nat (decpt - len)) +:+ ".0"
  else
    take (Z.to_nat decpt) ds +:+ "." +:+ drop (Z.to_nat decpt) ds.

(** [repr(x)] for a positive finite [x = m * 2^e]. *)
Definition repr_finite (m : positive) (e : Z) : string :=
  let num := if 0 <=? e then Zpos m * 2 ^ e else Zpos m in
  let den := if 0 <=? e then 1 else 2 ^ (- e) in
  let k := decimal_point num den in
  let (d, n) := shortest_digits 17 (S754_finite false m e) num den k 1 in
  let all := str_of_Z d in
  layout (rstrip_zeros all) (k + (Z.of_nat (String.length all) - n)).

(** [repr(x)], which is also what an f-string prints for [{x}]. *)
Definition float_repr (x : spec_float) : string :=
  match x with
  | S754_zero s => if s then "-0.0" else "0.0"
  | S754_infinity s => if s then "-inf" else "inf"
  | S754_nan => "nan"
  | S754_finite s m e => (if s then "-" else "") +:+ repr_finite m e
  end.

(** ** [get_openssh_version] and [check_openssh_version] *)

(** [s] with the prefix [pre] removed, when it starts with it. *)
Fixpoint removeprefix (pre s : string) {struct pre} : option string :=
  match pre with
  | "" => Some s
  | String a pre' =>
      match s with
      | "" => None
      | String b s' => if Ascii.eqb a b then removeprefix pre' s' else None
      end
  end.

(** The longest run of digits [s] starts with. *)
Fixpoint digit_run (s : string) : string :=
  match s with
  | "" => ""
  | String c s' => if isdigit c then String c (digit_run s') else ""
  end.

(** [OpenSSH_(\d+\.\d+)] matched at the start of [s]: the two digit runs
    of the group.  A greedy [\d+] that is not followed by what the
    pattern wants next cannot give digits back to any effect, because
    what follows a shorter run is a digit. *)
Definition match_at (s : string) : option (string * string) :=
  match removeprefix "OpenSSH_" s with
  | None => None
  | Some r =>
      let major := digit_run r in
      match major, drop (String.length major) r with
      | String _ _, String "." r' =>
          match digit_run r' with
          | "" => None
          | minor => Some (major, minor)
          end
      | _, _ => None
      end
  end.

(** [re.search(r"OpenSSH_(\d+\.\d+)", s)]: the leftmost match. *)
Fixpoint re_search (s : string) : option (string * string) :=
  match match_at s with
  | Some g => Some g
  | None =>
      match s with
      | "" => None
      | String _ s' => re_search s'
      end
  end.

(** [float(ssh_version_match.group(1))] *)
Definition float_of_group (g : string * string) : spec_float :=
  let (major, minor) := g in
  float_of_ratio (int_of_digits 0 (major +:+ minor))
                 (10 ^ Z.of_nat (String.length minor)).

(** The literal [7.7]. *)
Definition lit_7_7 : spec_float := float_of_ratio 77 10.

(** The host answers the call [["ssh", "-V"]] under its command line
    ["ssh -V"]; the client's output is what it writes to standard error,
    which the call redirects. *)
Definition get_openssh_version (h : host) : io (option spec_float) :=
  try_except
    (ssh_version_output <- lift (check_output h "ssh -V") ;;
     match re_search ssh_version_output with
     | Some g => ret (Some (float_of_group g))
     | None => ret None
     end)
    (Only CalledProcessError)
    (fun _ => ret None).

Definition check_openssh_version (h : host)
    : io (bool * string * option spec_float) :=
  try_except
    (ssh_version <- get_openssh_version h ;;
     match ssh_version with
     | Some v =>
         if SFleb lit_7_7 v then ret (true, "", Some v)
         else ret (false,
                   "[+] OpenSSH version is: " +:+ float_repr v
                     +:+ ", required version 7.7 and above.",
                   Some v)
     | None => ret (false, "Failed to determine OpenSSH version.", None)
     end)
    (Only CalledProcessError)
    (fun e => ret (false, "Error: " +:+ exn_str e, None)).

(** ** [check_sshd_config] *)

Definition sshd_config_path : string := "/etc/ssh/sshd_config".

(** The three flags of the scan. *)
Record sshd_flags := {
  found_pmsp_auth_block : bool;
  found_allow_user : bool;
  found_pubkey_accepted_algorithms : bool
}.

(** The body of [for line in file]. *)
Definition scan_line (line : string) (fl : sshd_flags) : sshd_flags :=
  let fl1 :=
    if String.eqb (Py.strip line)
         "# PSMP Authentication Configuration Block Start"
    then {| found_pmsp_auth_block := true;
            found_allow_user := found_allow_user fl;
            found_pubkey_accepted_algorithms :=
              found_pubkey_accepted_algorithms fl |}
    else fl in
  let fl2 :=
    if Py.startswith (Py.strip line) "AllowUser"
    then {| found_pmsp_auth_block := found_pmsp_auth_block fl1;
            found_allow_user := true;
            found_pubkey_accepted_algorithms :=
              found_pubkey_accepted_algorithms fl1 |}
    else fl1 in
  if Py.contains line "PubkeyAcceptedAlgorithms"
     && negb (Py.startswith (Py.strip line) "#")
  then {| found_pmsp_auth_block := found_pmsp_auth_block fl2;
          found_allow_user := found_allow_user fl2;
          found_pubkey_accepted_algorithms := true |}
  else fl2.

Fixpoint scan_lines (lines : list string) (fl : sshd_flags) : sshd_flags :=
  match lines with
  | [] => fl
  | line :: lines' => scan_lines lines' (scan_line line fl)
  end.

Definition no_flags : sshd_flags :=
  {| found_pmsp_auth_block := false;
     found_allow_user := false;
     found_pubkey_accepted_algorithms := false |}.

Definition block_not_found : string := "PSMP authentication block not found.".
Definition allow_user_found : string := "AllowUser mentioned found.".
Definition key_auth_advisory : string :=
  "[+] SSH-Key auth not enabled, sshd_config missing 'PubkeyAcceptedAlgorithms'.".

(** The three statements after the [try]. *)
Definition report_flags (fl : sshd_flags) : io unit :=
  (if negb (found_pmsp_auth_block fl) then print block_not_found
   else ret tt) ;;
  if found_allow_user fl then print allow_user_found
  else print key_auth_advisory.

(** The [try] yields the flags, or nothing when the handler returned. *)
Definition check_sshd_config (h : host) : io unit :=
  scanned <-
    try_except
      (content <- read_text h sshd_config_path ;;
       ret (Some (scan_lines (Py.readlines content) no_flags)))
      (Only FileNotFoundError)
      (fun _ => print "sshd_config file not found." ;; ret None) ;;
  match scanned with
  | None => ret tt
  | Some fl => report_flags fl
  end.

(** ** The file tree operations [logs_collect] calls *)

(** [p] lies below the directory [root]: the path from [root] to it. *)
Definition below (root p : string) : option string :=
  match removeprefix root p with
  | Some (String "/" rel) => Some rel
  | _ => None
  end.

(** [p] is [root] or lies below it. *)
Definition inside (root p : string) : bool :=
  String.eqb root p || bool_decide (is_Some (below root p)).

(** [os.path.basename(p)] *)
Definition basename (p : string) : string := List.last (Py.split "/" p) "".

Fixpoint endswith_slash (s : string) : bool :=
  match s with
  | "" => false
  | String c "" => Ascii.eqb c "/"
  | String _ s' => endswith_slash s'
  end.

(** [os.path.join(a, b)] *)
Definition path_join (a b : string) : string :=
  if Py.startswith b "/" then b
  else if String.eqb a "" || endswith_slash a then a +:+ b
  else a +:+ "/" +:+ b.

Definition ensure_dir (p : string) (f : gmap string node) : gmap string node :=
  match f !! p with
  | None => <[p := Dir]> f
  | Some _ => f
  end.

(** The path that cannot be made because the one above it in [chain]
    is a regular file. *)
Fixpoint first_below_file (f : gmap string node) (chain : list string)
    : option string :=
  match chain with
  | above :: rest =>
      match rest with
      | p :: _ => if is_file f above then Some p else first_below_file f rest
      | [] => None
      end
  | [] => None
  end.

(** [os.makedirs(path, exist_ok=True)]: a regular file at [path] is in
    the way, and so is one above it, below which no directory can be
    made. *)
Definition makedirs (h : host) (path : string) : io unit :=
  fun w =>
    match io_fault h (Makedirs path) with
    | Some e => (w, Raise e)
    | None =>
        if is_file (fs w) path then (w, Raise (file_exists path))
        else if existsb (is_file (fs w)) (ancestors "" path)
        then (w, Raise (not_a_directory
                          (default path
                             (first_below_file (fs w)
                                (ancestors "" path ++ [path])))))
        else (set_fs (foldr ensure_dir (fs w) (path :: ancestors "" path)) w,
              Ret tt)
    end.

(** The entries of the tree below [src], each at its place below [dst]. *)
Definition moved_entries (src dst : string) (f : gmap string node)
    : list (string * node) :=
  omap (fun '(p, n) =>
          match below src p with
          | Some rel => Some (dst +:+ "/" +:+ rel, n)
          | None => None
          end)
       (map_to_list f).

(** [shutil.copytree(src, dst)]: [dst] must not exist. *)
Definition copytree (h : host) (src dst : string) : io unit :=
  fun w =>
    match io_fault h (Copytree src dst) with
    | Some e => (w, Raise e)
    | None =>
        match fs w !! dst with
        | Some _ => (w, Raise (file_exists dst))
        | None =>
            (set_fs (list_to_map (moved_entries src dst (fs w))
                       ∪ <[dst := Dir]> (fs w)) w,
             Ret tt)
        end
    end.

(** [shutil.copy(src, dst)]: into [dst] when it is a directory. *)
Definition copy (h : host) (src dst : string) : io unit :=
  fun w =>
    match io_fault h (Copy src dst) with
    | Some e => (w, Raise e)
    | None =>
        match fs w !! src with
        | None => (w, Raise (no_such_file src))
        | Some Dir => (w, Raise (is_a_directory src))
        | Some (File content) =>
            let target :=
              if isdir (fs w) dst then path_join dst (basename src)
              else dst in
            if isdir (fs w) target
            then (w, Raise (is_a_directory target))
            else (set_fs (<[target := File content]> (fs w)) w, Ret tt)
        end
    end.

(** What the walk over [root] writes into the archive: every file below
    [root], under its path from [root]. *)
Definition zip_entries (root : string) (f : gmap string node)
    : list (string * string) :=
  omap (fun '(p, n) =>
          match n, below root p with
          | File content, Some rel => Some (rel, content)
          | _, _ => None
          end)
       (map_to_list f).

(** The [with zipfile.ZipFile(zip_filename, "w")] block.  The archive
    is the file [zip_filename] of the current directory, created or
    emptied when it is opened.  A write that fails leaves the file with
    what was written until then. *)
Definition write_zip (h : host) (zip_filename root : string) : io unit :=
  fun w =>
    let zip_path := path_join (getcwd h) zip_filename in
    match io_fault h (ZipOpen zip_filename) with
    | Some e => (w, Raise e)
    | None =>
        let entries := zip_entries root (fs w) in
        match io_fault h (ZipWrite zip_filename) with
        | Some e =>
            (set_fs (<[zip_path := File (zip_leftover h)]> (fs w)) w, Raise e)
        | None =>
            ({| fs := <[zip_path := File (zip_bytes h entries)]> (fs w);
                archives := <[zip_filename := entries]> (archives w);
                stdout := stdout w |}, Ret tt)
        end
    end.

(** A path the removal leaves behind: it cannot be deleted itself, or
    something at or below it cannot. *)
Definition survives (h : host) (f : gmap string node) (p : string) : bool :=
  existsb (fun q => bool_decide (is_Some (f !! q)) && inside p q)
          (elements (undeletable h)).

(** [shutil.rmtree(root, ignore_errors=True)]: removes what it can of
    [root] and never raises. *)
Definition rmtree_ignore_errors (h : host) (root : string) : io unit :=
  fun w =>
    (set_fs (filter (fun kv => negb (inside root kv.1) || survives h (fs w) kv.1)
                    (fs w)) w,
     Ret tt).

(** ** [logs_collect] *)

Definition log_folders : list string :=
  [ "/var/log/secure";
    "/var/log/messages";
    "/var/opt/CARKpsmp/logs";
    "/var/opt/CARKpsmp/logs/components";
    "/etc/ssh/sshd_config";
    "/etc/pam.d/sshd";
    "/etc/pam.d/password-auth";
    "/etc/pam.d/system-auth";
    "/etc/nsswitch.conf";
    "/var/opt/CARKpsmp/temp/EnvManager.log" ].

Definition temp_folder : string := "/tmp/psmp_logs".

(** The body of [for folder in log_folders]. *)
Definition collect_folder (h : host) (folder : string) : io unit :=
  fun w =>
    if bool_decide (is_Some (fs w !! folder)) then
      if isdir (fs w) folder then
        copytree h folder (path_join temp_folder (basename folder)) w
      else copy h folder temp_folder w
    else print ("Folder not found: " +:+ folder) w.

Fixpoint for_folder (h : host) (folders : list string) : io unit :=
  match folders with
  | [] => ret tt
  | folder :: folders' => collect_folder h folder ;; for_folder h folders'
  end.

(** The [try] block. *)
Definition copy_and_zip (h : host) : io unit :=
  for_folder h log_folders ;;
  let current_date := strftime_now h in
  let zip_filename := "PSMP_Logs_" +:+ current_date +:+ ".zip" in
  write_zip h zip_filename temp_folder ;;
  print ("Logs copied and zip file created: " +:+ zip_filename).

Definition logs_collect (h : host) : io unit :=
  makedirs h temp_folder ;;
  try_finally
    (try_except (copy_and_zip h) AnyException
       (fun e => print ("An error occurred: " +:+ exn_str e)))
    (rmtree_ignore_errors h temp_folder).

(** ** The entry point *)

(** How the process ends: [sys.exit(status)] or falling off the end of
    the script (status 0), or an exception nobody caught. *)
Inductive termination :=
  | Exited (status : Z)
  | Uncaught (e : exn).

(** The status the shell sees: the interpreter ends with 1 after an
    uncaught exception. *)
Definition exit_status (t : termination) : Z :=
  match t with
  | Exited status => status
  | Uncaught _ => 1
  end.

(** [len(sys.argv) == 2 and sys.argv[1] == "logs"] *)
Definition logs_mode (h : host) : bool :=
  match argv h with
  | [_; arg] => String.eqb arg "logs"
  | _ => false
  end.

(** [not psmp_version] *)
Definition falsy (psmp_version : option string) : bool :=
  match psmp_version with
  | None => true
  | Some v => String.eqb v ""
  end.

(** [service_status.get(key, 'Unavailable')] *)
Definition get_status (service_status : gmap string string) (key : string)
    : string :=
  default "Unavailable" (service_status !! key).

(** The checks after the installed version is known. *)
Definition report (h : host) (psmp_versions : json)
    (psmp_version : string) : io unit :=
  let '(distro_name, distro_version) := get_linux_distribution h in
  print ("PSMP version: " +:+ psmp_version) ;;
  print ("Linux distribution: " +:+ distro_name +:+ " " +:+ distro_version) ;;
  supported <- lift (Json.is_supported psmp_versions psmp_version
                       distro_name distro_version) ;;
  (if (supported : bool)
   then print ("PSMP version " +:+ psmp_version +:+ " Supports "
               +:+ distro_name +:+ " " +:+ distro_version)
   else print ("PSMP version " +:+ psmp_version +:+ " Does Not Support "
               +:+ distro_name +:+ " " +:+ distro_version)) ;;
  service_status <- check_services_status h ;;
  print ("PSMP Service Status: " +:+ get_status service_status "psmpsrv") ;;
  print ("SSHD Service Status: " +:+ get_status service_status "sshd") ;;
  checked <- check_openssh_version h ;;
  let '(success, message, ssh_version) := checked in
  (if negb success then print message else ret tt) ;;
  check_sshd_config h.

(** The script without the log mode; the value is the exit status. *)
Definition diagnostics (h : host) : io Z :=
  psmp_versions <- lift (versions_json h) ;;
  psmp_version <- get_installed_psmp_version h ;;
  if falsy psmp_version then
    print "[+] No PSMP version found." ;; ret 1
  else
    report h psmp_versions (default "" psmp_version) ;; ret 0.

Definition script (h : host) : io Z :=
  if logs_mode h then logs_collect h ;; ret 1
  else diagnostics h.

Definition main (h : host) (w : world) : world * termination :=
  match script h w with
  | (w', Ret status) => (w', Exited status)
  | (w', Raise e) => (w', Uncaught e)
  end.

(** ** The shape of a normalized version *)

(** [c in s] for a character. *)
Fixpoint has_char (c : ascii) (s : string) : bool :=
  match s with
  | "" => false
  | String c' s' => Ascii.eqb c' c || has_char c s'
  end.

(** A two-part version: [major], a dot, [minor], neither holding a dot. *)
Definition is_major_minor (v : string) : Prop :=
  exists major minor,
    has_char "." major = false /\ has_char "." minor = false /\
    v = major +:+ "." +:+ minor.

(** ** Hosts and worlds to evaluate the program on *)

Definition exit_status_1 : exn :=
  Exn CalledProcessError "Command returned non-zero exit status 1.".

Definition rpm_query : string := "rpm -qa | grep -i cark".
Definition status_psmpsrv : string := "systemctl status psmpsrv".
Definition status_sshd : string := "systemctl status sshd".
Definition ssh_V : string := "ssh -V".

(** The command [cmd] ends with a non-zero status. *)
Definition query_failed (h : host) (cmd : string) : Prop :=
  exists e, check_output h cmd = Raise e /\ exn_cls e = CalledProcessError.

(** The matrix of the specification's scenario. *)
Definition scenario_matrix : gmap string psmp_rule :=
  {[ "14.0" := {| supported_distributions :=
                    [ {| name := "Red Hat"; versions := Some ["8"] |} ] |} ]}.

(** A listing of the members of an archive, to stand for its bytes. *)
Fixpoint listing (entries : list (string * string)) : string :=
  match entries with
  | [] => ""
  | (path, content) :: entries' =>
      path +:+ ": " +:+ content +:+ String "010" (listing entries')
  end.

(** A Red Hat 8.6 host started in /root with the arguments [args], on
    which the commands listed in [answers] print the text given with
    them and every other command ends with status 1; nothing fails in
    the operating system. *)
Definition host_answering (args : list string)
    (answers : list (string * string)) : host :=
  {| argv := args;
     check_output := fun cmd =>
       match (list_to_map answers : gmap string string) !! cmd with
       | Some text => Ret text
       | None => Raise exit_status_1
       end;
     versions_json := Ret (to_json scenario_matrix);
     distro_version_best := "8.6";
     distro_name_ := "Red Hat";
     strftime_now := "11.03.26";
     getcwd := "/root";
     zip_bytes := listing;
     zip_leftover := "";
     io_fault := fun _ => None;
     undeletable := ∅ |}.

(** A world with the files [files] and nothing printed yet. *)
Definition world_with (files : list (string * node)) : world :=
  {| fs := list_to_map files; archives := ∅; stdout := [] |}.

(** ** What the auditor prints for given flags *)

Definition report_lines (fl : sshd_flags) : list string :=
  (if found_pmsp_auth_block fl then [] else [block_not_found])
  ++ [if found_allow_user fl then allow_user_found else key_auth_advisory].

(** The flags after a scan of the text [content]. *)
Definition flags_of (content : string) : sshd_flags :=
  scan_lines (Py.readlines content) no_flags.

(** ** The doubles of the three versions of the specification *)

Definition float_7_6 : spec_float := float_of_ratio 76 10.
Definition float_7_7 : spec_float := float_of_ratio 77 10.
Definition float_8_9 : spec_float := float_of_ratio 89 10.

(** The host [h] with another outcome of the matrix load, other failures
    of the operating system and other paths that cannot be removed. *)
Definition host_failing (h : host) (loaded : outcome json)
    (fault : os_call -> option exn) (stuck : gset string) : host :=
  {| argv := argv h;
     check_output := check_output h;
     versions_json := loaded;
     distro_version_best := distro_version_best h;
     distro_name_ := distro_name_ h;
     strftime_now := strftime_now h;
     getcwd := getcwd h;
     zip_bytes := zip_bytes h;
     zip_leftover := zip_leftover h;
     io_fault := fault;
     undeletable := stuck |}.

(** ** The clean-up of the staging directory *)

(** Every removal at or below [root] succeeds. *)
Definition removable (h : host) (root : string) : Prop :=
  forall q, q ∈ undeletable h -> inside root q = false.

(** A log-mode host on which writing the archive fails. *)
Definition disk_full_host : host :=
  host_failing (host_answering ["main.py"; "logs"] [])
    (Ret (to_json scenario_matrix))
    (fun call => match call with
                 | ZipWrite _ =>
                     Some (Exn OSError "[Errno 28] No space left on device")
                 | _ => None
                 end)
    ∅.

(** A log-mode host on which the staging directory cannot be removed. *)
Definition sticky_host : host :=
  host_failing (host_answering ["main.py"; "logs"] [])
    (Ret (to_json scenario_matrix))
    (fun _ => None) {[ temp_folder ]}.

(** A world with two of the log sources. *)
Definition two_logs : world :=
  world_with [("/var/log/secure", File "sshd[812]: Accepted publickey");
              ("/etc/nsswitch.conf", File "passwd: files sss")].

(** ** Checks that only read *)

(** A computation that leaves the file tree and the archives as they
    are, and whose printed lines and outcome do not depend on what was
    printed before it. *)
Definition reads_only {A} (m : io A) : Prop :=
  forall w, exists out r, forall l, m (say l w) = (say (l ++ out) w, r).

(** ** The lines of a diagnostic run *)

(** What the run prints before the configuration audit, for the
    installed version [psmp_version], the answer [supported] of the
    compatibility lookup, the service mapping [service_status] and the
    result of the OpenSSH check. *)
Definition diagnostic_lines (h : host) (psmp_version : string)
    (supported : bool) (service_status : gmap string string)
    (success : bool) (message : string) : list string :=
  let '(distro_name, distro_version) := get_linux_distribution h in
  [ "PSMP version: " +:+ psmp_version;
    "Linux distribution: " +:+ distro_name +:+ " " +:+ distro_version;
    if supported
    then "PSMP version " +:+ psmp_version +:+ " Supports "
         +:+ distro_name +:+ " " +:+ distro_version
    else "PSMP version " +:+ psmp_version +:+ " Does Not Support "
         +:+ distro_name +:+ " " +:+ distro_version;
    "PSMP Service Status: " +:+ get_status service_status "psmpsrv";
    "SSHD Service Status: " +:+ get_status service_status "sshd" ]
  ++ (if success then [] else [message]).

(** A healthy host: the agent 14.0 on Red Hat 8.6, both services
    active, OpenSSH 8.9. *)
Definition healthy_host : host :=
  host_answering ["main.py"]
    [ (rpm_query, "CARKpsmp-14.0.0-14.x86_64" +:+ String "010" "");
      (status_psmpsrv, "   Active: active (running)");
      (status_sshd, "   Active: active (running)");
      (ssh_V, "OpenSSH_8.9p1, OpenSSL 3.0.2") ].

(** The agent's log and a configuration the agent manages. *)
Definition healthy_world : world :=
  world_with
    [ (PSMPConsole_log, File "PSMP is up and working with Vault");
      (sshd_config_path,
       File ("# PSMP Authentication Configuration Block Start"
             +:+ String "010" ("AllowUsers root" +:+ String "010" ""))) ].

(** The healthy host without its matrix file. *)
Definition host_without_matrix : host :=
  host_failing healthy_host
    (Raise (Exn FileNotFoundError
              "[Errno 2] No such file or directory: 'src/versions.json'"))
    (fun _ => None) ∅.

(** A host without the agent's package. *)
Definition host_without_agent : host := host_answering ["main.py"] [].

(** The healthy host started in log mode. *)
Definition logs_host : host :=
  host_failing (host_answering ["main.py"; "logs"] [])
    (Ret (to_json scenario_matrix))
    (fun _ => None) ∅.

(** A host whose metadata gives the distribution [distro_name] at the
    version [distro_version]; every command ends with status 1. *)
Definition host_on (distro_name distro_version : string) : host :=
  {| argv := ["main.py"];
     check_output := fun _ => Raise exit_status_1;
     versions_json := Ret (to_json scenario_matrix);
     distro_version_best := distro_version;
     distro_name_ := distro_name;
     strftime_now := "11.03.26";
     getcwd := "/root";
     zip_bytes := listing;
     zip_leftover := "";
     io_fault := fun _ => None;
     undeletable := ∅ |}.

(** Every character of [s] is a digit. *)
Fixpoint all_digits (s : string) : bool :=
  match s with
  | "" => true
  | String c s' => isdigit c && all_digits s'
  end.

(** [s] does not start with a digit. *)
Definition no_digit_ahead (s : string) : bool :=
  match s with
  | "" => true
  | String c _ => negb (isdigit c)
  end.

(** The three tests of the configuration scan, line by line. *)
Definition block_start_line (line : string) : bool :=
  String.eqb (Py.strip line) "# PSMP Authentication Configuration Block Start".

Definition allow_user_line (line : string) : bool :=
  Py.startswith (Py.strip line) "AllowUser".

Definition pubkey_line (line : string) : bool :=
  Py.contains line "PubkeyAcceptedAlgorithms"
  && negb (Py.startswith (Py.strip line) "#").

(** A host on which every command raises [e]. *)
Definition host_raising (e : exn) : host :=
  {| argv := ["main.py"];
     check_output := fun _ => Raise e;
     versions_json := Ret (to_json scenario_matrix);
     distro_version_best := "8.6";
     distro_name_ := "Red Hat";
     strftime_now := "11.03.26";
     getcwd := "/root";
     zip_bytes := listing;
     zip_leftover := "";
     io_fault := fun _ => None;
     undeletable := ∅ |}.

Definition no_ssh_client : exn :=
  Exn FileNotFoundError "[Errno 2] No such file or directory: 'ssh'".

(** A host on which opening the daemon's configuration is refused. *)
Definition host_denying_config : host :=
  host_failing (host_answering ["main.py"] []) (Ret (to_json scenario_matrix))
    (fun call =>
       match call with
       | Open path =>
           if String.eqb path sshd_config_path
           then Some (os_error PermissionError "13" "Permission denied" path)
           else None
       | _ => None
       end)
    ∅.

(** ** What the log collection can touch *)

(** The name of the archive of a run. *)
Definition zip_name (h : host) : string :=
  "PSMP_Logs_" +:+ strftime_now h +:+ ".zip".

(** The part of the tree the collection works in: the staging directory,
    what lies below it, and the directories above it, which it creates
    when they are missing. *)
Definition staging_region (p : string) : bool :=
  inside temp_folder p || bool_decide (p ∈ ancestors "" temp_folder).

(** Where the archive of a run is written. *)
Definition zip_path (h : host) : string := path_join (getcwd h) (zip_name h).

(** The staging region and the archive file. *)
Definition collection_region (h : host) (p : string) : bool :=
  staging_region p || String.eqb p (zip_path h).

(** A computation changes the tree inside [region] only, completes no
    archive but [zip], and only adds to standard output. *)
Definition confined {A} (region : string -> bool) (zip : string) (m : io A)
    : Prop :=
  forall w w' r, m w = (w', r) ->
    (forall p, region p = false -> fs w' !! p = fs w !! p) /\
    (forall name, name <> zip -> archives w' !! name = archives w !! name) /\
    (exists out, stdout w' = stdout w ++ out).

(** The host [h] with the value [psmp_versions] loaded. *)
Definition with_matrix (h : host) (psmp_versions : json) : host :=
  host_failing h (Ret psmp_versions) (io_fault h) (undeletable h).

(** ** A collection without failures *)






(** A source that lies apart from the staging directory: its path has
    two characters at least and does not begin with "/t". *)
Definition apart (folder : string) : bool :=
  match folder with
  | String _ (String _ _) => negb (Py.startswith folder "/t")
  | _ => false
  end.

(** ** Version tokens of a few digits *)







(** * Properties *)

(** ** Strings *)

Lemma app_nil_l (s : string) : "" +:+ s = s.
Proof. reflexivity. Qed.

Lemma app_cons (a : ascii) (s t : string) :
  String a s +:+ t = String a (s +:+ t).
Proof. reflexivity. Qed.

Lemma startswith_spec (s p : string) :
  Py.startswith s p = true <-> is_prefix_of p s.
Proof.
  unfold is_prefix_of. revert s.
  induction p as [|a p IH]; intros s; simpl.
  - split; [intros _; exists s; reflexivity | done].
  - destruct s as [|b s].
    + split; [done | intros [t Ht]; discriminate Ht].
    + destruct (Ascii.eqb a b) eqn:Hab.
      * apply Ascii.eqb_eq in Hab as ->. rewrite IH.
        split; intros [t Ht]; exists t; rewrite app_cons in *; congruence.
      * apply Ascii.eqb_neq in Hab.
        split; [done | intros [t Ht]; rewrite app_cons in Ht; congruence].
Qed.

(** ** The compatibility lookup *)

Lemma for_supported_version_spec (distro_version : string) (vs : list string) :
  for_supported_version distro_version vs = true <->
  exists sv, sv ∈ vs /\ is_prefix_of sv distro_version.
Proof.
  induction vs as [|v vs IH]; simpl.
  - split; [done | intros (sv & Hin & _); by apply elem_of_nil in Hin].
  - destruct (Py.startswith distro_version v) eqn:Hv.
    + split; [intros _ | done].
      exists v. split; [left | by apply startswith_spec].
    + rewrite IH. split.
      * intros (sv & Hin & Hp). exists sv. split; [by right | done].
      * intros (sv & Hin & Hp). apply elem_of_cons in Hin as [-> | Hin].
        -- apply startswith_spec in Hp. congruence.
        -- by exists sv.
Qed.

Lemma for_distro_info_spec (distro_name distro_version : string)
    (ds : list distro_info) :
  for_distro_info distro_name distro_version ds = true <->
  exists d sv, d ∈ ds /\ same_name (name d) distro_name /\
               sv ∈ default [] (versions d) /\
               is_prefix_of sv distro_version.
Proof.
  unfold same_name. induction ds as [|d ds IH]; simpl.
  - split; [done | intros (d & sv & Hin & _); by apply elem_of_nil in Hin].
  - assert (Hstep :
      (exists d' sv, d' ∈ ds /\ Py.lower (name d') = Py.lower distro_name /\
                     sv ∈ default [] (versions d') /\
                     is_prefix_of sv distro_version) ->
      exists d' sv, d' ∈ d :: ds /\ Py.lower (name d') = Py.lower distro_name /\
                    sv ∈ default [] (versions d') /\
                    is_prefix_of sv distro_version).
    { intros (d' & sv & Hin & H). exists d', sv. split; [by right | done]. }
    destruct (String.eqb (Py.lower (name d)) (Py.lower distro_name)) eqn:Hn.
    + apply String.eqb_eq in Hn.
      destruct (for_supported_version distro_version (default [] (versions d)))
        eqn:Hv.
      * split; [intros _ | done].
        apply for_supported_version_spec in Hv as (sv & Hin & Hp).
        exists d, sv. split; [left | done].
      * rewrite IH. split; [exact Hstep |].
        intros (d' & sv & Hin & Hname & Hsv & Hp).
        apply elem_of_cons in Hin as [-> | Hin]; [| by exists d', sv].
        assert (for_supported_version distro_version (default [] (versions d))
                = true) by (apply for_supported_version_spec; by exists sv).
        congruence.
    + apply String.eqb_neq in Hn. rewrite IH. split; [exact Hstep |].
      intros (d' & sv & Hin & Hname & Hsv & Hp).
      apply elem_of_cons in Hin as [-> | Hin]; [done | by exists d', sv].
Qed.

Lemma for_version_spec (psmp_version distro_name distro_version : string)
    (items : list (string * psmp_rule)) :
  for_version psmp_version distro_name distro_version items = true <->
  exists key rule,
    (key, rule) ∈ items /\ is_prefix_of psmp_version key /\
    for_distro_info distro_name distro_version (supported_distributions rule)
    = true.
Proof.
  induction items as [|[version rule] items IH]; simpl.
  - split; [done | intros (k & r & Hin & _); by apply elem_of_nil in Hin].
  - destruct (Py.startswith version psmp_version) eqn:Hv.
    + destruct (for_distro_info distro_name distro_version
                  (supported_distributions rule)) eqn:Hd.
      * split; [intros _ | done].
        exists version, rule. split; [left |].
        split; [by apply startswith_spec | done].
      * rewrite IH. split.
        -- intros (k & r & Hin & H). exists k, r. split; [by right | done].
        -- intros (k & r & Hin & Hp & Hr).
           apply elem_of_cons in Hin as [[= -> ->] | Hin]; [congruence |].
           by exists k, r.
    + rewrite IH. split.
      * intros (k & r & Hin & H). exists k, r. split; [by right | done].
      * intros (k & r & Hin & Hp & Hr).
        apply elem_of_cons in Hin as [[= -> ->] | Hin]; [| by exists k, r].
        apply startswith_spec in Hp. congruence.
Qed.

(** The loop alone finds exactly the matching rules. *)
Lemma for_version_matching (psmp_versions : gmap string psmp_rule)
    (psmp_version distro_name distro_version : string) :
  for_version psmp_version distro_name distro_version
    (map_to_list psmp_versions) = true <->
  has_matching_rule psmp_versions psmp_version distro_name distro_version.
Proof.
  rewrite for_version_spec. unfold has_matching_rule. split.
  - intros (key & rule & Hin & Hp & Hd).
    apply elem_of_map_to_list in Hin.
    apply for_distro_info_spec in Hd as (d & sv & Hd).
    exists key, rule, d, sv. tauto.
  - intros (key & rule & d & sv & Hk & Hp & Hd).
    exists key, rule. split; [by apply elem_of_map_to_list |].
    split; [done |]. apply for_distro_info_spec. by exists d, sv.
Qed.

(** C1 (as amended).  [is_supported] returns true exactly when the
    installed version is itself a key of the matrix and some key that
    starts with it holds an entry whose name equals the distribution's
    name, case ignored, and one of whose version prefixes is a prefix of
    the distribution's version. *)
Theorem is_supported_iff (psmp_versions : gmap string psmp_rule)
    (psmp_version distro_name distro_version : string) :
  is_supported psmp_versions psmp_version distro_name distro_version = true
  <->
  is_Some (psmp_versions !! psmp_version) /\
  has_matching_rule psmp_versions psmp_version distro_name distro_version.
Proof.
  unfold is_supported.
  destruct (psmp_versions !! psmp_version) as [r|] eqn:Hkey.
  - rewrite for_version_matching. split; [intros H | tauto].
    split; [by exists r | done].
  - split; [done | intros [[r Hr] _]; discriminate Hr].
Qed.

(** C1 (as stated) fails: with the single key "14.0.1" the installed
    version "14.0" is a prefix of a key whose rule matches Red Hat 8.6,
    and [is_supported] answers false, because "14.0" is not a key. *)
Lemma is_supported_needs_exact_key :
  ~ (forall (psmp_versions : gmap string psmp_rule)
            (psmp_version distro_name distro_version : string),
        is_supported psmp_versions psmp_version distro_name distro_version
        = true
        <->
        has_matching_rule psmp_versions psmp_version
          distro_name distro_version).
Proof.
  intros H.
  pose (d := {| name := "Red Hat"; versions := Some ["8"] |}).
  pose (rule := {| supported_distributions := [d] |}).
  specialize (H {[ "14.0.1" := rule ]} "14.0" "red hat" "8.6").
  destruct H as [_ H].
  assert (Hfalse : is_supported {[ "14.0.1" := rule ]} "14.0" "red hat" "8.6"
                   = false) by (vm_compute; reflexivity).
  rewrite H in Hfalse; [discriminate |].
  exists "14.0.1", rule, d, "8".
  split; [apply lookup_singleton_eq |].
  split; [by exists ".1" |].
  split; [left |].
  split; [reflexivity |].
  split; [left | by exists ".6"].
Qed.
(** ** Prefixes and runs of digits *)

Lemma app_assoc_string (a b c : string) : (a +:+ b) +:+ c = a +:+ (b +:+ c).
Proof.
  induction a as [|x a IH]; [reflexivity |].
  rewrite !app_cons. by rewrite IH.
Qed.

Lemma removeprefix_spec (pre s r : string) :
  removeprefix pre s = Some r <-> s = pre +:+ r.
Proof.
  revert s. induction pre as [|a pre IH]; intros s; simpl.
  - rewrite app_nil_l. split; congruence.
  - rewrite app_cons. destruct s as [|b s]; [split; discriminate |].
    destruct (Ascii.eqb a b) eqn:Hab.
    + apply Ascii.eqb_eq in Hab as ->. rewrite IH. split; congruence.
    + apply Ascii.eqb_neq in Hab. split; [discriminate | congruence].
Qed.

Lemma digit_run_split (s : string) :
  s = digit_run s +:+ drop (String.length (digit_run s)) s.
Proof.
  induction s as [|c s IH]; [reflexivity |]. simpl.
  destruct (isdigit c); [| reflexivity].
  rewrite app_cons. simpl. by rewrite <- IH.
Qed.

Lemma digit_run_all_digits (s : string) : all_digits (digit_run s) = true.
Proof.
  induction s as [|c s IH]; [reflexivity |]. simpl.
  destruct (isdigit c) eqn:Hc; [| reflexivity]. simpl. by rewrite Hc.
Qed.

Lemma digit_run_maximal (s : string) :
  no_digit_ahead (drop (String.length (digit_run s)) s) = true.
Proof.
  induction s as [|c s IH]; [reflexivity |]. simpl.
  destruct (isdigit c) eqn:Hc; simpl; [exact IH | by rewrite Hc].
Qed.

Lemma digit_run_app (ds rest : string) :
  all_digits ds = true -> no_digit_ahead rest = true ->
  digit_run (ds +:+ rest) = ds /\
  drop (String.length ds) (ds +:+ rest) = rest.
Proof.
  intros Hds Hrest. induction ds as [|c ds IH].
  - rewrite app_nil_l. split; [| reflexivity].
    destruct rest as [|c rest]; [reflexivity |]. simpl in *.
    by destruct (isdigit c).
  - simpl in Hds. apply andb_true_iff in Hds as [Hc Hds].
    destruct (IH Hds) as [Hrun Hdrop].
    rewrite app_cons. simpl. by rewrite Hc, Hrun, Hdrop.
Qed.

Lemma match_at_sound (s major minor : string) :
  match_at s = Some (major, minor) ->
  exists post,
    s = "OpenSSH_" +:+ major +:+ "." +:+ minor +:+ post /\
    major <> "" /\ minor <> "" /\
    all_digits major = true /\ all_digits minor = true /\
    no_digit_ahead post = true.
Proof.
  unfold match_at.
  destruct (removeprefix "OpenSSH_" s) as [r |] eqn:Hpre; [| done].
  apply removeprefix_spec in Hpre as ->.
  pose proof (digit_run_split r) as Hr.
  pose proof (digit_run_all_digits r) as Hd1.
  destruct (digit_run r) as [|c1 major'] eqn:Hmajor; [done |].
  destruct (drop _ r) as [|dot r'] eqn:Hdrop; [done |].
  destruct (Ascii.ascii_dec dot ".") as [-> | Hne];
    [| destruct dot as [[] [] [] [] [] [] [] []]; try done; congruence].
  pose proof (digit_run_split r') as Hr'.
  pose proof (digit_run_all_digits r') as Hd2.
  pose proof (digit_run_maximal r') as Hmax.
  destruct (digit_run r') as [|c2 minor'] eqn:Hminor; [done |].
  intros [= <- <-].
  exists (drop (String.length (String c2 minor')) r').
  split; [| by repeat split].
  rewrite Hr at 1. rewrite Hr' at 1. reflexivity.
Qed.

Lemma re_search_cons (c : ascii) (s : string) :
  re_search (String c s)
  = match match_at (String c s) with
    | Some g => Some g
    | None => re_search s
    end.
Proof. reflexivity. Qed.

(** ** The compatibility lookup on the loaded value *)








(** ** Version parsing *)

Lemma split_no_sep (sep : ascii) (s : string) :
  has_char sep s = false -> Py.split sep s = [s].
Proof.
  induction s as [|c s IH]; simpl; [done |].
  intros [Hc Hs]%orb_false_iff. rewrite Hc, (IH Hs). reflexivity.
Qed.

Lemma split_app (sep : ascii) (a b : string) :
  has_char sep a = false ->
  Py.split sep (a +:+ String sep b) = a :: Py.split sep b.
Proof.
  induction a as [|c a IH]; intros Ha.
  - rewrite app_nil_l. simpl. by rewrite Ascii.eqb_refl.
  - simpl in Ha. apply orb_false_iff in Ha as [Hc Ha].
    rewrite app_cons. simpl. rewrite Hc, (IH Ha). reflexivity.
Qed.

Lemma split_not_nil (sep : ascii) (s : string) : Py.split sep s <> [].
Proof.
  destruct s as [|c s]; simpl; [done |].
  destruct (Ascii.eqb c sep); [done |].
  destruct (Py.split sep s); done.
Qed.

Lemma split_parts_no_sep (sep : ascii) (s : string) :
  Forall (fun part => has_char sep part = false) (Py.split sep s).
Proof.
  induction s as [|c s IH]; simpl.
  - by repeat constructor.
  - destruct (Ascii.eqb c sep) eqn:Hc; [by constructor |].
    destruct (Py.split sep s) as [|part parts]; simpl.
    + repeat constructor. simpl. by rewrite Hc.
    + inversion IH; subst. constructor; [| done]. simpl. by rewrite Hc.
Qed.

Lemma main_version_of_fixed (major minor : string) :
  has_char "." major = false -> has_char "." minor = false ->
  main_version_of (major +:+ "." +:+ minor) = major +:+ "." +:+ minor.
Proof.
  intros Hmajor Hminor. unfold main_version_of.
  change ("." +:+ minor) with (String "." minor).
  rewrite (split_app _ _ _ Hmajor), (split_no_sep _ _ Hminor).
  reflexivity.
Qed.

(** Whatever the metadata says, the version the detector returns is a
    two-part version. *)
Lemma main_version_of_is_major_minor (version_info : string) :
  is_major_minor (main_version_of version_info).
Proof.
  unfold main_version_of, is_major_minor.
  pose proof (split_parts_no_sep "." version_info) as Hparts.
  pose proof (split_not_nil "." version_info) as Hnil.
  destruct (Py.split "." version_info) as [|major [|minor rest]]; [done | |].
  - exists major, "0". inversion Hparts; subst. by simpl.
  - exists major, minor. inversion Hparts as [|? ? ? Htail]; subst.
    inversion Htail; subst. simpl.
    replace (1 <? Z.of_nat (S (S (length rest)))) with true
      by (symmetry; apply Z.ltb_lt; lia).
    done.
Qed.

Lemma main_version_of_idempotent (version_info : string) :
  main_version_of (main_version_of version_info) = main_version_of version_info.
Proof.
  destruct (main_version_of_is_major_minor version_info)
    as (major & minor & Hmajor & Hminor & ->).
  by apply main_version_of_fixed.
Qed.

(** C9 (as amended).  The distribution detector's normalization leaves a
    two-part version as it is: when the metadata's version is already
    [major.minor], [get_linux_distribution] returns that same string. *)
Theorem get_linux_distribution_normalized (h : host) :
  is_major_minor (distro_version_best h) ->
  (get_linux_distribution h).2 = distro_version_best h.
Proof.
  intros (major & minor & Hmajor & Hminor & Hv).
  unfold get_linux_distribution. simpl. rewrite Hv.
  by apply main_version_of_fixed.
Qed.

Lemma get_linux_distribution_normalized_witness :
  is_major_minor "8.6" /\
  (get_linux_distribution (host_answering [] [])).2 = "8.6".
Proof.
  assert (Hv : is_major_minor "8.6") by (by exists "8", "6").
  split; [exact Hv |].
  exact (get_linux_distribution_normalized (host_answering [] []) Hv).
Defined.

(** C9 (as stated) fails for the installed-version parser: its input has
    the shape name-major.minor.patch-build, and on the two-part version
    "14.0" the second field between dashes does not exist. *)
Lemma extract_main_version_not_identity :
  ~ (forall v, is_major_minor v -> extract_main_version v = Ret v).
Proof.
  intros H. specialize (H "14.0").
  assert (Hraise : extract_main_version "14.0"
                   = Raise (Exn IndexError "list index out of range"))
    by reflexivity.
  rewrite H in Hraise; [discriminate |]. by exists "14", "0".
Qed.

(** ** The installed-version detector raises on short outputs *)

Lemma get_installed_raises (h : host) (w : world) (out : string) (e : exn) :
  check_output h rpm_query = Ret out ->
  Py.strip out <> "" ->
  extract_main_version (Py.strip out) = Raise e ->
  exn_cls e <> CalledProcessError ->
  get_installed_psmp_version h w = (w, Raise e).
Proof.
  intros Hout Hne Hx Hcls.
  unfold get_installed_psmp_version, try_except, bind, lift.
  fold rpm_query. rewrite Hout.
  rewrite bool_decide_eq_false_2 by done.
  rewrite Hx. simpl. by rewrite bool_decide_eq_false_2.
Qed.

(** C10.  The detector is not total on non-empty outputs: when the
    package query prints "CARKpsmp-14.0" the unpacking of the version's
    components raises a [ValueError], when it prints a line without a
    dash the indexing raises an [IndexError], and neither is caught. *)
Theorem get_installed_psmp_version_not_total (h : host) (w : world) :
  (check_output h rpm_query = Ret "CARKpsmp-14.0" ->
   get_installed_psmp_version h w = (w, Raise (unpack_error 2))) /\
  (check_output h rpm_query = Ret "cark" ->
   get_installed_psmp_version h w
   = (w, Raise (Exn IndexError "list index out of range"))).
Proof.
  split; intros Hout.
  - by apply (get_installed_raises h w "CARKpsmp-14.0").
  - by apply (get_installed_raises h w "cark").
Qed.

Lemma get_installed_psmp_version_not_total_witness :
  get_installed_psmp_version
    (host_answering [] [(rpm_query, "CARKpsmp-14.0")]) (world_with [])
  = (world_with [], Raise (unpack_error 2)) /\
  get_installed_psmp_version
    (host_answering [] [(rpm_query, "cark")]) (world_with [])
  = (world_with [], Raise (Exn IndexError "list index out of range")).
Proof.
  split.
  - apply (get_installed_psmp_version_not_total
             (host_answering [] [(rpm_query, "CARKpsmp-14.0")])).
    reflexivity.
  - apply (get_installed_psmp_version_not_total
             (host_answering [] [(rpm_query, "cark")])).
    reflexivity.
Defined.

(** ** The io monad *)

Lemma say_say (l1 l2 : list string) (w : world) :
  say l2 (say l1 w) = say (l1 ++ l2) w.
Proof. unfold say. simpl. by rewrite <- app_assoc. Qed.

Lemma say_nil (w : world) : say [] w = w.
Proof. destruct w. unfold say. simpl. by rewrite app_nil_r. Qed.

(** ** The service check *)

Lemma check_psmpsrv_failed (h : host) (m : gmap string string) (w : world) :
  query_failed h status_psmpsrv ->
  check_psmpsrv h m w = (w, Ret (<["psmpsrv" := "Inactive"]> m)).
Proof.
  intros (e & He & Hcls).
  unfold check_psmpsrv, try_except, bind, lift. fold status_psmpsrv.
  rewrite He. simpl. by rewrite bool_decide_eq_true_2.
Qed.

Lemma check_sshd_failed (h : host) (m : gmap string string) (w : world) :
  query_failed h status_sshd ->
  check_sshd h m w = (w, Ret (<["sshd" := "Inactive"]> m)).
Proof.
  intros (e & He & Hcls).
  unfold check_sshd, try_except, bind, lift. fold status_sshd.
  rewrite He. simpl. by rewrite bool_decide_eq_true_2.
Qed.

(** The second block changes nothing but the entry for ["sshd"]. *)
Lemma check_sshd_returns (h : host) (m m' : gmap string string)
    (w w' : world) :
  check_sshd h m w = (w', Ret m') ->
  w' = w /\ exists status, m' = <["sshd" := status]> m.
Proof.
  unfold check_sshd, try_except, bind, lift, ret.
  destruct (check_output h "systemctl status sshd") as [text | e]; simpl.
  - destruct (Py.contains text "Active: active");
      [| destruct (Py.contains text "Active: inactive")];
      intros [= <- <-]; eauto.
  - destruct (bool_decide (exn_cls e = CalledProcessError)); [| done].
    intros [= <- <-]; eauto.
Qed.

Lemma check_services_status_unfold (h : host) (w : world) :
  check_services_status h w
  = match check_psmpsrv h ∅ w with
    | (w1, Ret m1) =>
        match check_sshd h m1 w1 with
        | (w2, Ret m2) => (w2, Ret m2)
        | (w2, Raise e) => (w2, Raise e)
        end
    | (w1, Raise e) => (w1, Raise e)
    end.
Proof.
  unfold check_services_status, bind, ret.
  destruct (check_psmpsrv h ∅ w) as [w1 [m1 | e]]; [| done].
  by destruct (check_sshd h m1 w1) as [w2 [m2 | e]].
Qed.

(** C3 (what the code does).  When the service manager reports the agent
    active and reading the agent's log raises (the file is absent, say),
    [check_services_status] returns no mapping: the exception leaves the
    function, because the handler of the block names
    [CalledProcessError] only. *)
Theorem check_services_status_log_unreadable (h : host) (w : world)
    (text : string) (e : exn) :
  check_output h status_psmpsrv = Ret text ->
  Py.contains text "Active: active" = true ->
  read_text h PSMPConsole_log w = (w, Raise e) ->
  exn_cls e <> CalledProcessError ->
  check_services_status h w = (w, Raise e).
Proof.
  intros Htext Hactive Hread Hcls.
  rewrite check_services_status_unfold.
  unfold check_psmpsrv, try_except, bind, lift. fold status_psmpsrv.
  rewrite Htext, Hactive, Hread. simpl.
  by rewrite bool_decide_eq_false_2.
Qed.

Lemma check_services_status_log_unreadable_witness :
  check_services_status
    (host_answering [] [(status_psmpsrv, "   Active: active (running)")])
    (world_with [])
  = (world_with [],
     Raise (Exn FileNotFoundError
              "[Errno 2] No such file or directory: '/var/opt/CARKpsmp/logs/PSMPConsole.log'")).
Proof.
  apply (check_services_status_log_unreadable
           (host_answering [] [(status_psmpsrv, "   Active: active (running)")])
           (world_with []) "   Active: active (running)");
    [reflexivity | reflexivity | reflexivity | discriminate].
Defined.

(** C4 (as amended).  A service whose status query fails is entered as
    "Inactive", the value a service reported inactive gets: whenever the
    function returns a mapping, the entry of a service whose query failed
    is "Inactive", and when both queries fail the function returns the
    mapping with both entries "Inactive". *)
Theorem failed_query_is_inactive (h : host) (w : world) :
  (query_failed h status_psmpsrv ->
   forall w' m, check_services_status h w = (w', Ret m) ->
                m !! "psmpsrv" = Some "Inactive") /\
  (query_failed h status_sshd ->
   forall w' m, check_services_status h w = (w', Ret m) ->
                m !! "sshd" = Some "Inactive") /\
  (query_failed h status_psmpsrv -> query_failed h status_sshd ->
   check_services_status h w
   = (w, Ret (<["sshd" := "Inactive"]> (<["psmpsrv" := "Inactive"]> ∅)))).
Proof.
  rewrite check_services_status_unfold. repeat split.
  - intros Hq w' m. rewrite (check_psmpsrv_failed h ∅ w Hq).
    destruct (check_sshd h _ w) as [w2 [m2 | e]] eqn:Hsshd; [| done].
    intros [= <- <-].
    apply check_sshd_returns in Hsshd as [_ [status ->]].
    by rewrite lookup_insert_ne, lookup_insert_eq.
  - intros Hq w' m.
    destruct (check_psmpsrv h ∅ w) as [w1 [m1 | e]]; [| done].
    rewrite (check_sshd_failed h m1 w1 Hq). intros [= <- <-].
    by rewrite lookup_insert_eq.
  - intros Hp Hs.
    by rewrite (check_psmpsrv_failed h ∅ w Hp), (check_sshd_failed h _ w Hs).
Qed.

Lemma failed_query_is_inactive_witness :
  check_services_status (host_answering [] []) (world_with [])
  = (world_with [],
     Ret (<["sshd" := "Inactive"]> (<["psmpsrv" := "Inactive"]> ∅))).
Proof.
  apply (failed_query_is_inactive (host_answering [] []) (world_with []));
    by exists exit_status_1.
Defined.

(** C4 (as stated) fails: on a host where both queries fail and on a host
    where both services are reported inactive the function returns the
    same mapping, with "Inactive" for both services. *)
Lemma failed_query_not_distinguished :
  check_services_status (host_answering [] []) (world_with [])
  = check_services_status
      (host_answering []
         [(status_psmpsrv, "   Active: inactive (dead)");
          (status_sshd, "   Active: inactive (dead)")])
      (world_with []) /\
  exists m,
    check_services_status (host_answering [] []) (world_with [])
    = (world_with [], Ret m) /\
    m !! "psmpsrv" = Some "Inactive" /\ m !! "sshd" = Some "Inactive".
Proof.
  split; [by vm_compute |].
  eexists. split; [reflexivity |]. by vm_compute.
Qed.

(** ** The OpenSSH version check *)

Lemma get_openssh_version_found (h : host) (w : world) (out : string)
    (g : string * string) :
  check_output h ssh_V = Ret out -> re_search out = Some g ->
  get_openssh_version h w = (w, Ret (Some (float_of_group g))).
Proof.
  intros Hout Hg. unfold get_openssh_version, try_except, bind, lift.
  fold ssh_V. by rewrite Hout, Hg.
Qed.

(** Both ways of not finding a version end in [None]. *)
Lemma get_openssh_version_none (h : host) (w : world) :
  query_failed h ssh_V \/
  (exists out, check_output h ssh_V = Ret out /\ re_search out = None) ->
  get_openssh_version h w = (w, Ret None).
Proof.
  unfold get_openssh_version, try_except, bind, lift. fold ssh_V.
  intros [(e & He & Hcls) | (out & Hout & Hnone)].
  - rewrite He. simpl. by rewrite bool_decide_eq_true_2.
  - by rewrite Hout, Hnone.
Qed.


(** *** Tokens of one or two digits *)








(** The comparison is one of doubles, not of decimals: a token just
    below 7.7 that parses to the double of 7.7 passes the check. *)
Lemma check_openssh_version_rounds :
  float_of_group ("7", "69999999999999999999") = float_7_7 /\
  check_openssh_version
    (host_answering [] [(ssh_V, "OpenSSH_7.69999999999999999999")])
    (world_with [])
  = (world_with [], Ret (true, "", Some float_7_7)).
Proof. split; vm_compute; reflexivity. Qed.

(** The function catches the failure it handles itself: as far as
    [check_openssh_version] can see, [get_openssh_version] never raises
    [CalledProcessError]. *)
Lemma get_openssh_version_raises (h : host) (w w' : world) (e : exn) :
  get_openssh_version h w = (w', Raise e) -> exn_cls e <> CalledProcessError.
Proof.
  unfold get_openssh_version, try_except, bind, lift, ret.
  destruct (check_output h "ssh -V") as [out | e0]; simpl.
  - by destruct (re_search out).
  - destruct (bool_decide (exn_cls e0 = CalledProcessError)) eqn:Hcls; [done |].
    intros [= _ ->]. by apply bool_decide_eq_false in Hcls.
Qed.

(** C6 (what the code does).  The two ways of not finding a version are
    not told apart.  When the version command ends with a non-zero
    status, and when it succeeds and its output holds no
    OpenSSH_<major>.<minor> token, the result is the same triple, with
    the message "Failed to determine OpenSSH version.".  The handler of
    [check_openssh_version], which would answer a failed command with
    "Error: " and the text of the exception, is never entered: whatever
    the host, no result of the check has a message that begins with
    "Error: ". *)
Theorem check_openssh_version_undetermined (h : host) (w : world) :
  (query_failed h ssh_V \/
   (exists out, check_output h ssh_V = Ret out /\ re_search out = None) ->
   check_openssh_version h w
   = (w, Ret (false, "Failed to determine OpenSSH version.", None))) /\
  (forall w' success message ssh_version,
     check_openssh_version h w = (w', Ret (success, message, ssh_version)) ->
     Py.startswith message "Error: " = false).
Proof.
  split.
  - intros H. unfold check_openssh_version, try_except, bind.
    by rewrite (get_openssh_version_none h w H).
  - intros w' success message ssh_version.
    unfold check_openssh_version, try_except, bind.
    destruct (get_openssh_version h w) as [w0 [[v |] | e]] eqn:Hget; simpl.
    + destruct (SFleb lit_7_7 v); by intros [= _ _ <- _].
    + by intros [= _ _ <- _].
    + apply get_openssh_version_raises in Hget.
      by rewrite bool_decide_eq_false_2.
Qed.

Lemma check_openssh_version_undetermined_witness :
  check_openssh_version (host_answering [] []) (world_with [])
  = (world_with [], Ret (false, "Failed to determine OpenSSH version.", None))
  /\
  check_openssh_version
    (host_answering [] [(ssh_V, "usage: ssh [-46AaCfGgKkMNnqsTtVvXxYy]")])
    (world_with [])
  = (world_with [], Ret (false, "Failed to determine OpenSSH version.", None)).
Proof.
  split.
  - apply (check_openssh_version_undetermined
             (host_answering [] []) (world_with [])).
    left. by exists exit_status_1.
  - apply (check_openssh_version_undetermined
             (host_answering []
                [(ssh_V, "usage: ssh [-46AaCfGgKkMNnqsTtVvXxYy]")])
             (world_with [])).
    right. by exists "usage: ssh [-46AaCfGgKkMNnqsTtVvXxYy]".
Defined.

(** A host whose version command ends with status 1 and a host whose
    version command prints no version get the same result. *)
Lemma check_openssh_version_failures_coincide :
  query_failed (host_answering [] []) ssh_V /\
  check_output
    (host_answering [] [(ssh_V, "usage: ssh [-46AaCfGgKkMNnqsTtVvXxYy]")])
    ssh_V
  = Ret "usage: ssh [-46AaCfGgKkMNnqsTtVvXxYy]" /\
  re_search "usage: ssh [-46AaCfGgKkMNnqsTtVvXxYy]" = None /\
  check_openssh_version (host_answering [] []) (world_with [])
  = check_openssh_version
      (host_answering [] [(ssh_V, "usage: ssh [-46AaCfGgKkMNnqsTtVvXxYy]")])
      (world_with []).
Proof.
  split; [by exists exit_status_1 |]. by vm_compute.
Qed.

(** ** The configuration audit *)

Lemma check_sshd_config_prints (h : host) (w : world) (content : string) :
  read_text h sshd_config_path w = (w, Ret content) ->
  check_sshd_config h w = (say (report_lines (flags_of content)) w, Ret tt).
Proof.
  intros Hread.
  unfold check_sshd_config, try_except, bind, ret. rewrite Hread.
  fold (flags_of content).
  unfold report_flags, report_lines, bind, print, ret.
  destruct (found_pmsp_auth_block (flags_of content)),
           (found_allow_user (flags_of content)); simpl;
    by rewrite ?say_say.
Qed.

(** The advisory follows the AllowUser flag alone. *)
Lemma key_auth_advisory_iff (fl : sshd_flags) :
  key_auth_advisory ∈ report_lines fl <-> found_allow_user fl = false.
Proof.
  unfold report_lines. rewrite elem_of_app, list_elem_of_singleton.
  destruct (found_pmsp_auth_block fl), (found_allow_user fl);
    rewrite ?elem_of_nil, ?list_elem_of_singleton;
    split; try tauto; try discriminate;
    intros [H | H]; first [discriminate H | destruct H].
Qed.

(** C2 (what the code does).  The flag for PubkeyAcceptedAlgorithms is
    computed and never read.  A configuration whose only line is an
    uncommented PubkeyAcceptedAlgorithms directive gets the key-auth
    advisory, and one that has an AllowUsers line and no
    PubkeyAcceptedAlgorithms line at all does not get it. *)
Theorem check_sshd_config_ignores_pubkey (h : host) (w : world) :
  (read_text h sshd_config_path w
   = (w, Ret ("PubkeyAcceptedAlgorithms +ssh-rsa" +:+ String "010" "")) ->
   found_pubkey_accepted_algorithms
     (flags_of ("PubkeyAcceptedAlgorithms +ssh-rsa" +:+ String "010" ""))
   = true /\
   check_sshd_config h w
   = (say [block_not_found; key_auth_advisory] w, Ret tt)) /\
  (read_text h sshd_config_path w
   = (w, Ret ("AllowUsers root" +:+ String "010" "")) ->
   found_pubkey_accepted_algorithms
     (flags_of ("AllowUsers root" +:+ String "010" ""))
   = false /\
   check_sshd_config h w
   = (say [block_not_found; allow_user_found] w, Ret tt)).
Proof.
  split; intros Hread; (split; [reflexivity |]);
    by rewrite (check_sshd_config_prints h w _ Hread).
Qed.

Lemma check_sshd_config_ignores_pubkey_witness :
  check_sshd_config (host_answering [] [])
    (world_with [(sshd_config_path,
                  File ("PubkeyAcceptedAlgorithms +ssh-rsa"
                          +:+ String "010" ""))])
  = (say [block_not_found; key_auth_advisory]
       (world_with [(sshd_config_path,
                     File ("PubkeyAcceptedAlgorithms +ssh-rsa"
                             +:+ String "010" ""))]),
     Ret tt).
Proof.
  apply (check_sshd_config_ignores_pubkey (host_answering [] [])
           (world_with [(sshd_config_path,
                         File ("PubkeyAcceptedAlgorithms +ssh-rsa"
                                 +:+ String "010" ""))])).
  reflexivity.
Defined.

(** ** Paths *)

Lemma below_spec (root p rel : string) :
  below root p = Some rel <-> p = root +:+ "/" +:+ rel.
Proof.
  unfold below. split.
  - destruct (removeprefix root p) as [[|c r]|] eqn:Hpre; try discriminate.
    apply removeprefix_spec in Hpre as ->.
    destruct (Ascii.ascii_dec c "/") as [-> | Hne]; [by intros [= ->] |].
    destruct c as [[] [] [] [] [] [] [] []]; try discriminate; congruence.
  - intros ->.
    assert (Hpre : removeprefix root (root +:+ "/" +:+ rel)
                   = Some (String "/" rel))
      by (by apply removeprefix_spec).
    by rewrite Hpre.
Qed.

Lemma inside_spec (root p : string) :
  inside root p = true <-> p = root \/ exists rel, p = root +:+ "/" +:+ rel.
Proof.
  unfold inside. rewrite orb_true_iff, String.eqb_eq, bool_decide_eq_true.
  split; intros [H | H]; eauto.
  - destruct H as [rel H]. right. exists rel. by apply below_spec.
  - destruct H as [rel H]. right. exists rel. by apply below_spec.
Qed.

Lemma inside_trans (a b c : string) :
  inside a b = true -> inside b c = true -> inside a c = true.
Proof.
  rewrite !inside_spec. intros [-> | [r1 ->]] [-> | [r2 ->]]; eauto.
  right. exists (r1 +:+ "/" +:+ r2).
  rewrite !app_assoc_string. reflexivity.
Qed.

(** ** The log collector *)

Lemma survives_removable (h : host) (f : gmap string node) (root p : string) :
  removable h root -> inside root p = true -> survives h f p = false.
Proof.
  intros Hrem Hp. unfold survives.
  destruct (existsb _ _) eqn:Hex; [| done].
  apply existsb_exists in Hex as (q & Hq & Hboth).
  apply andb_true_iff in Hboth as [_ Hpq].
  apply list_elem_of_In, elem_of_elements in Hq.
  pose proof (inside_trans root p q Hp Hpq) as Hin.
  rewrite (Hrem q Hq) in Hin. discriminate.
Qed.

(** The clean-up removes every path at or below the root that can be
    removed, and leaves standard output and the archives as they are. *)
Lemma rmtree_removes (h : host) (root p : string) (w : world) :
  removable h root -> inside root p = true ->
  fs (rmtree_ignore_errors h root w).1 !! p = None.
Proof.
  intros Hrem Hp. unfold rmtree_ignore_errors. simpl.
  apply map_lookup_filter_None. right. intros n _. simpl.
  rewrite Hp, (survives_removable h (fs w) root p Hrem Hp). simpl. tauto.
Qed.

(** What is left of the function once the staging directory is there:
    the guarded block always ends normally, then the removal runs. *)
Lemma logs_collect_after_makedirs (h : host) (w w1 : world) :
  makedirs h temp_folder w = (w1, Ret tt) ->
  logs_collect h w
  = match copy_and_zip h w1 with
    | (w2, Ret _) => rmtree_ignore_errors h temp_folder w2
    | (w2, Raise e) =>
        rmtree_ignore_errors h temp_folder
          (say ["An error occurred: " +:+ exn_str e] w2)
    end.
Proof.
  intros Hmk. unfold logs_collect, bind, try_finally, try_except.
  rewrite Hmk.
  destruct (copy_and_zip h w1) as [w2 [[] | e]]; reflexivity.
Qed.

(** C7 (as amended).  Once the staging directory exists, [logs_collect]
    returns without raising whatever happens while it copies and
    compresses; an exception raised there is printed as text; and when
    removals at and below the staging directory succeed, no path at or
    below the staging directory exists after the return. *)
Theorem logs_collect_cleans_up (h : host) (w w1 : world) :
  makedirs h temp_folder w = (w1, Ret tt) ->
  exists w',
    logs_collect h w = (w', Ret tt) /\
    (removable h temp_folder ->
     forall p, inside temp_folder p = true -> fs w' !! p = None) /\
    (forall w2 e, copy_and_zip h w1 = (w2, Raise e) ->
                  stdout w' = stdout w2 ++ ["An error occurred: " +:+ exn_str e]).
Proof.
  intros Hmk. rewrite (logs_collect_after_makedirs h w w1 Hmk).
  destruct (copy_and_zip h w1) as [w2 [[] | e]].
  - exists (rmtree_ignore_errors h temp_folder w2).1.
    split; [reflexivity |]. split.
    + intros Hrem p Hp. by apply rmtree_removes.
    + intros w3 e [=].
  - exists (rmtree_ignore_errors h temp_folder
              (say ["An error occurred: " +:+ exn_str e] w2)).1.
    split; [reflexivity |]. split.
    + intros Hrem p Hp. by apply rmtree_removes.
    + intros w3 e' [= <- <-]. reflexivity.
Qed.

Lemma logs_collect_cleans_up_witness :
  exists w',
    logs_collect disk_full_host two_logs = (w', Ret tt) /\
    fs w' !! temp_folder = None /\
    fs w' !! "/tmp/psmp_logs/secure" = None /\
    stdout w' = [ "Folder not found: /var/log/messages";
                  "Folder not found: /var/opt/CARKpsmp/logs";
                  "Folder not found: /var/opt/CARKpsmp/logs/components";
                  "Folder not found: /etc/ssh/sshd_config";
                  "Folder not found: /etc/pam.d/sshd";
                  "Folder not found: /etc/pam.d/password-auth";
                  "Folder not found: /etc/pam.d/system-auth";
                  "Folder not found: /var/opt/CARKpsmp/temp/EnvManager.log";
                  "An error occurred: [Errno 28] No space left on device" ].
Proof.
  pose (w1 := (makedirs disk_full_host temp_folder two_logs).1).
  assert (Hmk : makedirs disk_full_host temp_folder two_logs = (w1, Ret tt))
    by (vm_compute; reflexivity).
  pose (w2 := (copy_and_zip disk_full_host w1).1).
  assert (Hzip : copy_and_zip disk_full_host w1
                 = (w2, Raise (Exn OSError
                                 "[Errno 28] No space left on device")))
    by (vm_compute; reflexivity).
  destruct (logs_collect_cleans_up disk_full_host two_logs w1 Hmk)
    as (w' & Hrun & Hgone & Hsaid).
  exists w'. split; [exact Hrun |].
  assert (Hrem : removable disk_full_host temp_folder)
    by (intros q Hq; by apply elem_of_empty in Hq).
  split; [apply (Hgone Hrem); vm_compute; reflexivity |].
  split; [apply (Hgone Hrem); vm_compute; reflexivity |].
  rewrite (Hsaid _ _ Hzip). vm_compute. reflexivity.
Defined.

(** C7 (as stated) fails: the removal ignores its errors, so on a host
    where the staging directory cannot be removed the function returns
    and the directory is still there. *)
Lemma logs_collect_leaves_staging :
  (logs_collect sticky_host two_logs).2 = Ret tt /\
  fs (logs_collect sticky_host two_logs).1 !! temp_folder = Some Dir.
Proof.
  split; vm_compute; reflexivity.
Qed.

(** ** Checks that only read the host *)

(** A reading computation behaves after some printing as it does before. *)
Lemma reads_only_frame {A} (m : io A) (w : world) (out l : list string)
    (r : outcome A) :
  reads_only m -> m w = (say out w, r) ->
  m (say l w) = (say (l ++ out) w, r).
Proof.
  intros Hm Hw. destruct (Hm w) as (out' & r' & Hall).
  pose proof (Hall []) as H0. rewrite say_nil, Hw in H0. simpl in H0.
  injection H0 as Hout ->. apply app_inv_head in Hout as ->. apply Hall.
Qed.

Lemma reads_only_ret {A} (a : A) : reads_only (ret a).
Proof. intros w. exists [], (Ret a). intros l. by rewrite app_nil_r. Qed.

Lemma reads_only_lift {A} (r : outcome A) : reads_only (lift r).
Proof. intros w. exists [], r. intros l. by rewrite app_nil_r. Qed.

Lemma reads_only_print (line : string) : reads_only (print line).
Proof.
  intros w. exists [line], (Ret tt). intros l.
  unfold print. by rewrite say_say.
Qed.

Lemma reads_only_read_text (h : host) (path : string) :
  reads_only (read_text h path).
Proof.
  intros w. exists [], (read_text h path w).2. intros l.
  rewrite app_nil_r. unfold read_text. simpl.
  destruct (io_fault h (Open path)); [done |].
  destruct (fs w !! path) as [[] |]; try done.
  by destruct (existsb _ _).
Qed.

Lemma reads_only_bind {A B} (m : io A) (k : A -> io B) :
  reads_only m -> (forall a, reads_only (k a)) -> reads_only (bind m k).
Proof.
  intros Hm Hk w. destruct (Hm w) as (out1 & [a | e] & H1).
  - destruct (Hk a w) as (out2 & r2 & H2).
    exists (out1 ++ out2), r2. intros l.
    unfold bind. by rewrite H1, H2, app_assoc.
  - exists out1, (Raise e). intros l. unfold bind. by rewrite H1.
Qed.

Lemma reads_only_try_except {A} (body : io A) (clause : except_clause)
    (handler : exn -> io A) :
  reads_only body -> (forall e, reads_only (handler e)) ->
  reads_only (try_except body clause handler).
Proof.
  intros Hb Hh w. destruct (Hb w) as (out1 & [a | e] & H1).
  - exists out1, (Ret a). intros l. unfold try_except. by rewrite H1.
  - destruct (catches clause e) eqn:Hc.
    + destruct (Hh e w) as (out2 & r2 & H2).
      exists (out1 ++ out2), r2. intros l.
      unfold try_except. by rewrite H1, Hc, H2, app_assoc.
    + exists out1, (Raise e). intros l.
      unfold try_except. by rewrite H1, Hc.
Qed.

Ltac reads_only_step :=
  first
    [ apply reads_only_ret
    | apply reads_only_lift
    | apply reads_only_print
    | apply reads_only_read_text
    | apply reads_only_bind; [| intros ?]
    | apply reads_only_try_except; [| intros ?]
    | match goal with
      | |- reads_only (if ?b then _ else _) => destruct b
      | |- reads_only (match ?x with _ => _ end) => destruct x
      end ].

Ltac reads_only_auto := repeat reads_only_step.

Lemma reads_only_get_installed_psmp_version (h : host) :
  reads_only (get_installed_psmp_version h).
Proof. unfold get_installed_psmp_version. reads_only_auto. Qed.

Lemma reads_only_check_services_status (h : host) :
  reads_only (check_services_status h).
Proof.
  unfold check_services_status, check_psmpsrv, check_sshd. reads_only_auto.
Qed.

Lemma reads_only_check_openssh_version (h : host) :
  reads_only (check_openssh_version h).
Proof.
  unfold check_openssh_version, get_openssh_version. reads_only_auto.
Qed.

Lemma reads_only_check_sshd_config (h : host) :
  reads_only (check_sshd_config h).
Proof.
  unfold check_sshd_config, report_flags. reads_only_auto.
Qed.

(** ** The entry point *)

Lemma extract_main_version_nonempty (s v : string) :
  extract_main_version s = Ret v -> v <> "".
Proof.
  unfold extract_main_version.
  destruct (Py.split "-" s !! 1%nat) as [version |]; [| done].
  destruct (Py.splitn "." version 2) as [|major [|minor [|patch [|]]]];
    try done.
  intros [= <-]. by destruct major.
Qed.

Lemma get_installed_nonempty (h : host) (w w' : world) (v : string) :
  get_installed_psmp_version h w = (w', Ret (Some v)) -> v <> "".
Proof.
  unfold get_installed_psmp_version, try_except, bind, lift, ret.
  destruct (check_output h "rpm -qa | grep -i cark") as [out | e]; simpl.
  - destruct (bool_decide (Py.strip out = "")); [done |].
    destruct (extract_main_version (Py.strip out)) as [v' | e] eqn:Hx;
      simpl; [| by destruct (bool_decide _)].
    intros [= <- <-]. by apply (extract_main_version_nonempty _ _ Hx).
  - by destruct (bool_decide _).
Qed.

Lemma bind_returned {A B} (m : io A) (k : A -> io B) (w w' : world) (a : A) :
  m w = (w', Ret a) -> bind m k w = k a w'.
Proof. intros H. unfold bind. by rewrite H. Qed.

Lemma print_say (line : string) (l : list string) (w : world) :
  print line (say l w) = (say (l ++ [line]) w, Ret tt).
Proof. unfold print. by rewrite say_say. Qed.

(** The checks of a run whose parts all return, in the order of the
    script, after the lines [l] were printed. *)
Lemma report_after (h : host) (w : world) (l : list string)
    (psmp_versions : json) (psmp_version : string) (supported : bool)
    (service_status : gmap string string) (success : bool)
    (message : string) (ssh_version : option spec_float)
    (cfg : list string) :
  Json.is_supported psmp_versions psmp_version
    (get_linux_distribution h).1 (get_linux_distribution h).2
  = Ret supported ->
  check_services_status h w = (w, Ret service_status) ->
  check_openssh_version h w = (w, Ret (success, message, ssh_version)) ->
  check_sshd_config h w = (say cfg w, Ret tt) ->
  report h psmp_versions psmp_version (say l w)
  = (say (l ++ diagnostic_lines h psmp_version supported service_status
                 success message ++ cfg) w,
     Ret tt).
Proof.
  intros Hsup Hsvc Hssh Hcfg.
  rewrite <- (say_nil w) in Hsvc at 2. rewrite <- (say_nil w) in Hssh at 2.
  unfold report, diagnostic_lines.
  destruct (get_linux_distribution h) as [distro_name distro_version].
  simpl in Hsup.
  do 2 (erewrite bind_returned by apply print_say).
  erewrite bind_returned by (unfold lift; rewrite Hsup; reflexivity).
  destruct supported, success; simpl negb; cbv iota;
    repeat (erewrite bind_returned by apply print_say);
    (erewrite bind_returned
       by (apply reads_only_frame;
           [apply reads_only_check_services_status | exact Hsvc]));
    repeat (erewrite bind_returned by apply print_say);
    (erewrite bind_returned
       by (apply reads_only_frame;
           [apply reads_only_check_openssh_version | exact Hssh]));
    cbv iota;
    (erewrite bind_returned by first [apply print_say | reflexivity]);
    (erewrite reads_only_frame
       by first [apply reads_only_check_sshd_config | exact Hcfg]);
    do 2 f_equal; rewrite ?app_nil_r, <- ?app_assoc; reflexivity.
Qed.

(** C8 (as amended).  With the single argument "logs" the program does
    what the log collection does and nothing more, and ends with status
    1.  Otherwise it loads the matrix first, and a failure to load it
    ends the run with the exception uncaught, before any query.  With
    the file loaded, whatever it holds: when the installed-agent query
    yields no version the program prints the no-version message and
    exits with status 1, before any further check; when it yields a
    version and the compatibility lookup, the service check, the OpenSSH
    check and the configuration audit each return, the program prints
    the diagnostic lines and exits with status 0. *)
Theorem main_exit_status (h : host) (w : world) :
  (forall prog, argv h = [prog; "logs"] ->
     (main h w).1 = (logs_collect h w).1 /\
     exit_status (main h w).2 = 1) /\
  (logs_mode h = false ->
   forall e, versions_json h = Raise e -> main h w = (w, Uncaught e)) /\
  (logs_mode h = false ->
   forall psmp_versions, versions_json h = Ret psmp_versions ->
     get_installed_psmp_version h w = (w, Ret None) ->
     main h w = (say ["[+] No PSMP version found."] w, Exited 1)) /\
  (logs_mode h = false ->
   forall psmp_versions psmp_version supported service_status success
          message ssh_version cfg,
     versions_json h = Ret psmp_versions ->
     get_installed_psmp_version h w = (w, Ret (Some psmp_version)) ->
     Json.is_supported psmp_versions psmp_version
       (get_linux_distribution h).1 (get_linux_distribution h).2
     = Ret supported ->
     check_services_status h w = (w, Ret service_status) ->
     check_openssh_version h w = (w, Ret (success, message, ssh_version)) ->
     check_sshd_config h w = (say cfg w, Ret tt) ->
     main h w
     = (say (diagnostic_lines h psmp_version supported service_status
               success message ++ cfg) w,
        Exited 0)).
Proof.
  unfold main, script. split; [| split; [| split]].
  - intros prog Hargv. unfold logs_mode. rewrite Hargv. simpl.
    unfold bind, ret.
    by destruct (logs_collect h w) as [w' [[] | e]].
  - intros -> e He. unfold diagnostics, bind, lift. by rewrite He.
  - intros -> psmp_versions Hm Hnone.
    unfold diagnostics. unfold bind at 1. unfold lift. rewrite Hm.
    unfold bind at 1. rewrite Hnone. reflexivity.
  - intros -> psmp_versions psmp_version supported service_status success
           message ssh_version cfg Hm Hv Hsup Hsvc Hssh Hcfg.
    assert (Hf : falsy (Some psmp_version) = false)
      by (simpl; apply String.eqb_neq;
          by apply (get_installed_nonempty h w w)).
    unfold diagnostics. unfold bind at 1. unfold lift. rewrite Hm.
    unfold bind at 1. rewrite Hv, Hf.
    unfold bind, ret. simpl default.
    pose proof (report_after h w [] psmp_versions psmp_version supported
                  service_status success message ssh_version cfg
                  Hsup Hsvc Hssh Hcfg) as Hrep.
    rewrite say_nil in Hrep. rewrite Hrep. reflexivity.
Qed.

Lemma main_exit_status_witness :
  ((main logs_host two_logs).1 = (logs_collect logs_host two_logs).1 /\
   exit_status (main logs_host two_logs).2 = 1) /\
  main host_without_matrix healthy_world
  = (healthy_world,
     Uncaught (Exn FileNotFoundError
                 "[Errno 2] No such file or directory: 'src/versions.json'"))
  /\
  main host_without_agent healthy_world
  = (say ["[+] No PSMP version found."] healthy_world, Exited 1) /\
  main healthy_host healthy_world
  = (say [ "PSMP version: 14.0";
           "Linux distribution: Red Hat 8.6";
           "PSMP version 14.0 Supports Red Hat 8.6";
           "PSMP Service Status: Running and communicating with Vault";
           "SSHD Service Status: Running";
           "AllowUser mentioned found." ] healthy_world,
     Exited 0).
Proof.
  destruct (main_exit_status logs_host two_logs) as (Hlogs & _).
  destruct (main_exit_status host_without_matrix healthy_world)
    as (_ & Hload & _).
  destruct (main_exit_status host_without_agent healthy_world)
    as (_ & _ & Hnone & _).
  destruct (main_exit_status healthy_host healthy_world)
    as (_ & _ & _ & Hrun).
  split; [| split; [| split]].
  - apply (Hlogs "main.py"). reflexivity.
  - apply Hload; reflexivity.
  - apply (Hnone eq_refl (to_json scenario_matrix)); reflexivity.
  - etransitivity.
    + apply (Hrun eq_refl (to_json scenario_matrix) "14.0" true
               (<["sshd" := "Running"]>
                  (<["psmpsrv" := "Running and communicating with Vault"]> ∅))
               true "" (Some float_8_9) ["AllowUser mentioned found."]);
        vm_compute; reflexivity.
    + vm_compute. reflexivity.
Defined.

(** C8 (as stated) fails: on a host started without arguments whose
    package query yields the version 14.0 and whose matrix file is
    missing, nothing is printed and the process ends with status 1. *)
Lemma main_exit_status_not_zero :
  logs_mode host_without_matrix = false /\
  get_installed_psmp_version host_without_matrix healthy_world
  = (healthy_world, Ret (Some "14.0")) /\
  stdout (main host_without_matrix healthy_world).1 = [] /\
  exit_status (main host_without_matrix healthy_world).2 = 1.
Proof.
  repeat split; vm_compute; reflexivity.
Qed.

(** * Further properties *)

(** ** The compatibility lookup *)

Lemma is_supported_matching (psmp_versions : gmap string psmp_rule)
    (psmp_version distro_name distro_version : string) :
  is_Some (psmp_versions !! psmp_version) ->
  has_matching_rule psmp_versions psmp_version distro_name distro_version ->
  is_supported psmp_versions psmp_version distro_name distro_version = true.
Proof.
  intros [r Hr] Hm. unfold is_supported. rewrite Hr.
  by apply for_version_matching.
Qed.

Lemma is_supported_true_inv (psmp_versions : gmap string psmp_rule)
    (psmp_version distro_name distro_version : string) :
  is_supported psmp_versions psmp_version distro_name distro_version = true ->
  is_Some (psmp_versions !! psmp_version) /\
  has_matching_rule psmp_versions psmp_version distro_name distro_version.
Proof.
  unfold is_supported.
  destruct (psmp_versions !! psmp_version) as [r |] eqn:Hr; [| done].
  intros H. split; [by exists r | by apply for_version_matching].
Qed.

Lemma is_prefix_of_app (p s t : string) :
  is_prefix_of p s -> is_prefix_of p (s +:+ t).
Proof.
  intros [u ->]. exists (u +:+ t). by rewrite app_assoc_string.
Qed.

(** X1.  Version matching is by prefix: a distribution version that is
    supported stays supported when it is made longer, so a rule for "8"
    covers "8.6" and every "8.6.x". *)
Theorem is_supported_longer_version (psmp_versions : gmap string psmp_rule)
    (psmp_version distro_name distro_version more : string) :
  is_supported psmp_versions psmp_version distro_name distro_version = true ->
  is_supported psmp_versions psmp_version distro_name
    (distro_version +:+ more) = true.
Proof.
  intros [Hkey (key & rule & d & sv & Hk & Hp & Hd & Hn & Hsv & Hv)]
    %is_supported_true_inv.
  apply is_supported_matching; [done |].
  exists key, rule, d, sv.
  refine (conj Hk (conj Hp (conj Hd (conj Hn (conj Hsv _))))).
  by apply is_prefix_of_app.
Qed.

Lemma is_supported_longer_version_witness :
  is_supported scenario_matrix "14.0" "Red Hat" ("8.6" +:+ ".1") = true.
Proof.
  apply is_supported_longer_version. vm_compute. reflexivity.
Defined.

(** X2.  The answer does not depend on the case of the distribution's
    name: two names with the same lower-case form get the same answer. *)
Theorem is_supported_ignores_case (psmp_versions : gmap string psmp_rule)
    (psmp_version distro_name distro_name' distro_version : string) :
  same_name distro_name distro_name' ->
  is_supported psmp_versions psmp_version distro_name distro_version
  = is_supported psmp_versions psmp_version distro_name' distro_version.
Proof.
  unfold same_name. intros Hsame.
  assert (Hd : forall ds,
             for_distro_info distro_name distro_version ds
             = for_distro_info distro_name' distro_version ds).
  { induction ds as [|d ds IH]; simpl; [done |]. by rewrite Hsame, IH. }
  unfold is_supported.
  destruct (psmp_versions !! psmp_version); [| done].
  induction (map_to_list psmp_versions) as [|[version rule] items IH];
    simpl; [done |].
  by rewrite Hd, IH.
Qed.

Lemma is_supported_ignores_case_witness :
  is_supported scenario_matrix "14.0" "RED HAT" "8.6"
  = is_supported scenario_matrix "14.0" "red hat" "8.6".
Proof.
  apply is_supported_ignores_case. reflexivity.
Defined.

(** X3.  Adding keys to the matrix never withdraws support: what a
    matrix supports, every matrix that extends it supports. *)
Theorem is_supported_larger_matrix (m m' : gmap string psmp_rule)
    (psmp_version distro_name distro_version : string) :
  m ⊆ m' ->
  is_supported m psmp_version distro_name distro_version = true ->
  is_supported m' psmp_version distro_name distro_version = true.
Proof.
  intros Hsub [[r Hr] (key & rule & d & sv & Hk & Hrest)]
    %is_supported_true_inv.
  apply is_supported_matching.
  - exists r. by apply (lookup_weaken m m').
  - exists key, rule, d, sv. split; [by apply (lookup_weaken m m') | done].
Qed.

Lemma is_supported_larger_matrix_witness :
  is_supported
    (<["13.2" := {| supported_distributions := [] |}]> scenario_matrix)
    "14.0" "Red Hat" "8.6" = true.
Proof.
  apply (is_supported_larger_matrix scenario_matrix).
  - apply insert_subseteq. reflexivity.
  - vm_compute. reflexivity.
Defined.

(** X4.  An entry without a 'versions' key, or with an empty list of
    versions, supports nothing: when no entry of the matrix declares a
    version prefix, the answer is false for every installed version and
    every distribution. *)
Theorem is_supported_without_versions (psmp_versions : gmap string psmp_rule)
    (psmp_version distro_name distro_version : string) :
  (forall key rule d,
      psmp_versions !! key = Some rule ->
      d ∈ supported_distributions rule ->
      default [] (versions d) = []) ->
  is_supported psmp_versions psmp_version distro_name distro_version = false.
Proof.
  intros Hnone.
  destruct (is_supported _ _ _ _) eqn:Hs; [| done].
  apply is_supported_true_inv in Hs
    as [_ (key & rule & d & sv & Hk & _ & Hd & _ & Hsv & _)].
  rewrite (Hnone key rule d Hk Hd) in Hsv. by apply elem_of_nil in Hsv.
Qed.

Lemma is_supported_without_versions_witness :
  is_supported
    {[ "14.0" := {| supported_distributions :=
                      [ {| name := "Red Hat"; versions := None |};
                        {| name := "Red Hat"; versions := Some [] |} ] |} ]}
    "14.0" "Red Hat" "8.6" = false.
Proof.
  apply is_supported_without_versions.
  intros key rule d Hk Hd.
  apply lookup_singleton_Some in Hk as [_ <-].
  simpl in Hd. apply elem_of_cons in Hd as [-> | Hd]; [done |].
  apply list_elem_of_singleton in Hd as ->. done.
Defined.

(** X5.  The empty string is a prefix of every version: an entry that
    lists "" among its versions, under the installed version's own key,
    supports its distribution at every version. *)
Theorem is_supported_empty_prefix (psmp_versions : gmap string psmp_rule)
    (psmp_version distro_name distro_version : string)
    (rule : psmp_rule) (d : distro_info) :
  psmp_versions !! psmp_version = Some rule ->
  d ∈ supported_distributions rule ->
  same_name (name d) distro_name ->
  "" ∈ default [] (versions d) ->
  is_supported psmp_versions psmp_version distro_name distro_version = true.
Proof.
  intros Hk Hd Hn Hsv. apply is_supported_matching; [by exists rule |].
  exists psmp_version, rule, d, "".
  refine (conj Hk (conj _ (conj Hd (conj Hn (conj Hsv _))))).
  - exists "". clear. induction psmp_version as [|c s IH]; [done |].
    rewrite app_cons. by rewrite <- IH.
  - by exists distro_version.
Qed.

Lemma is_supported_empty_prefix_witness :
  is_supported
    {[ "14.0" := {| supported_distributions :=
                      [ {| name := "Rocky"; versions := Some [""] |} ] |} ]}
    "14.0" "rocky" "9.3" = true.
Proof.
  apply (is_supported_empty_prefix _ _ _ _
           {| supported_distributions :=
                [ {| name := "Rocky"; versions := Some [""] |} ] |}
           {| name := "Rocky"; versions := Some [""] |}).
  - apply lookup_singleton_eq.
  - left.
  - reflexivity.
  - left.
Defined.

(** ** The installed-version detector *)

Lemma has_char_app (c : ascii) (a b : string) :
  has_char c (a +:+ b) = has_char c a || has_char c b.
Proof.
  induction a as [|x a IH]; [reflexivity |].
  rewrite app_cons. simpl. by rewrite IH, orb_assoc.
Qed.

(** Splitting a text whose front part holds no separator: the front part
    stays in the first field. *)
Lemma split_app_front (sep : ascii) (a b : string) :
  has_char sep a = false ->
  Py.split sep (a +:+ b)
  = (a +:+ hd "" (Py.split sep b)) :: tl (Py.split sep b).
Proof.
  induction a as [|c a IH]; intros Ha.
  - rewrite !app_nil_l.
    pose proof (split_not_nil sep b). by destruct (Py.split sep b).
  - simpl in Ha. apply orb_false_iff in Ha as [Hc Ha].
    rewrite !app_cons. simpl. rewrite Hc, (IH Ha). reflexivity.
Qed.

Lemma splitn_app (sep : ascii) (a b : string) (n : nat) :
  has_char sep a = false ->
  Py.splitn sep (a +:+ String sep b) (S n) = a :: Py.splitn sep b n.
Proof.
  induction a as [|c a IH]; intros Ha.
  - rewrite app_nil_l. simpl. by rewrite Ascii.eqb_refl.
  - simpl in Ha. apply orb_false_iff in Ha as [Hc Ha].
    rewrite app_cons. simpl. rewrite Hc, (IH Ha). reflexivity.
Qed.

Lemma splitn_0 (sep : ascii) (s : string) : Py.splitn sep s 0 = [s].
Proof. by destruct s. Qed.

(** With splits left, the first field holds no separator. *)
Lemma splitn_first_no_sep (sep : ascii) (s : string) (n : nat) :
  has_char sep (hd "" (Py.splitn sep s (S n))) = false.
Proof.
  induction s as [|c s IH]; simpl; [done |].
  destruct (Ascii.eqb c sep) eqn:Hc; [done |].
  destruct (Py.splitn sep s (S n)) as [|part parts]; simpl in *.
  - by rewrite Hc.
  - by rewrite Hc, IH.
Qed.

(** What follows the first field is a split of the rest, one split
    fewer. *)
Lemma splitn_rest (sep : ascii) (s : string) (n : nat) :
  tl (Py.splitn sep s (S n)) = [] \/
  exists s', tl (Py.splitn sep s (S n)) = Py.splitn sep s' n.
Proof.
  induction s as [|c s IH]; simpl; [by left |].
  destruct (Ascii.eqb c sep); [right; by exists s |].
  destruct (Py.splitn sep s (S n)) as [|part parts]; simpl in *;
    [by left | exact IH].
Qed.

Lemma extract_main_version_major_minor (s v : string) :
  extract_main_version s = Ret v -> is_major_minor v.
Proof.
  unfold extract_main_version.
  destruct (Py.split "-" s !! 1%nat) as [version |]; [| done].
  pose proof (splitn_first_no_sep "." version 1) as Hmajor.
  destruct (splitn_rest "." version 1) as [Hnil | [s' Hrest]];
    destruct (Py.splitn "." version 2) as [|major [|minor [|patch [|]]]];
    try done; simpl in *.
  intros [= <-]. exists major, minor. split; [done |]. split; [| done].
  pose proof (splitn_first_no_sep "." s' 0) as Hminor.
  by rewrite <- Hrest in Hminor.
Qed.

(** X6.  What the detector returns is a two-part version: whenever it
    returns a version, that version is [major.minor] with no dot inside
    either part. *)
Theorem get_installed_psmp_version_major_minor (h : host) (w w' : world)
    (v : string) :
  get_installed_psmp_version h w = (w', Ret (Some v)) -> is_major_minor v.
Proof.
  unfold get_installed_psmp_version, try_except, bind, lift, ret.
  destruct (check_output h "rpm -qa | grep -i cark") as [out | e]; simpl.
  - destruct (bool_decide (Py.strip out = "")); [done |].
    destruct (extract_main_version (Py.strip out)) as [v' | e] eqn:Hx;
      simpl; [| by destruct (bool_decide _)].
    intros [= <- <-]. by apply (extract_main_version_major_minor _ _ Hx).
  - by destruct (bool_decide _).
Qed.

Lemma get_installed_psmp_version_major_minor_witness :
  is_major_minor "14.0".
Proof.
  apply (get_installed_psmp_version_major_minor healthy_host healthy_world
           healthy_world).
  vm_compute. reflexivity.
Defined.

(** X7.  A package line of the documented shape
    name-major.minor.patch-build gives [major.minor]: the name holds no
    dash, the two components hold neither dash nor dot, and what follows
    the second dot is not looked at; white space around the line is
    ignored. *)
Theorem get_installed_psmp_version_package_line (h : host) (w : world)
    (out pkg major minor rest : string) :
  check_output h rpm_query = Ret out ->
  Py.strip out = pkg +:+ "-" +:+ major +:+ "." +:+ minor +:+ "." +:+ rest ->
  has_char "-" pkg = false ->
  has_char "-" major = false -> has_char "." major = false ->
  has_char "-" minor = false -> has_char "." minor = false ->
  get_installed_psmp_version h w = (w, Ret (Some (major +:+ "." +:+ minor))).
Proof.
  intros Hout Hstrip Hpkg Hmajor1 Hmajor2 Hminor1 Hminor2.
  assert (Hx : extract_main_version (Py.strip out)
               = Ret (major +:+ "." +:+ minor)).
  { rewrite Hstrip. unfold extract_main_version.
    change ("-" +:+ major +:+ "." +:+ minor +:+ "." +:+ rest)
      with (String "-" (major +:+ "." +:+ minor +:+ "." +:+ rest)).
    rewrite (split_app _ _ _ Hpkg).
    replace (major +:+ "." +:+ minor +:+ "." +:+ rest)
      with ((major +:+ "." +:+ minor +:+ ".") +:+ rest)
      by (by rewrite !app_assoc_string).
    rewrite split_app_front
      by (rewrite !has_char_app, Hmajor1, Hminor1; reflexivity).
    simpl lookup.
    rewrite !app_assoc_string.
    change ("." +:+ minor +:+ "." +:+ hd "" (Py.split "-" rest))
      with (String "." (minor +:+ String "." (hd "" (Py.split "-" rest)))).
    rewrite (splitn_app _ _ _ 1 Hmajor2), (splitn_app _ _ _ 0 Hminor2).
    by rewrite splitn_0. }
  unfold get_installed_psmp_version, try_except, bind, lift.
  fold rpm_query. rewrite Hout.
  rewrite bool_decide_eq_false_2, Hx; [done |].
  rewrite Hstrip. by destruct pkg.
Qed.

Lemma get_installed_psmp_version_package_line_witness :
  get_installed_psmp_version healthy_host healthy_world
  = (healthy_world, Ret (Some ("14" +:+ "." +:+ "0"))).
Proof.
  apply (get_installed_psmp_version_package_line healthy_host healthy_world
           ("CARKpsmp-14.0.0-14.x86_64" +:+ String "010" "")
           "CARKpsmp" "14" "0" "0-14.x86_64");
    reflexivity.
Defined.

Lemma extract_main_version_raises (s : string) (e : exn) :
  extract_main_version s = Raise e ->
  exn_cls e = IndexError \/ exn_cls e = ValueError.
Proof.
  unfold extract_main_version.
  destruct (Py.split "-" s !! 1%nat) as [version |];
    [| intros [= <-]; by left].
  destruct (Py.splitn "." version 2) as [|major [|minor [|patch [|]]]];
    intros [= <-]; by right.
Qed.

(** X8.  The detector answers "not found" exactly in two cases: the
    package query ends with a non-zero status, or its output is blank.
    In both the world is left as it is. *)
Theorem get_installed_psmp_version_none_iff (h : host) (w : world) :
  get_installed_psmp_version h w = (w, Ret None) <->
  query_failed h rpm_query \/
  exists out, check_output h rpm_query = Ret out /\ Py.strip out = "".
Proof.
  unfold get_installed_psmp_version, try_except, bind, lift, ret, query_failed.
  fold rpm_query.
  destruct (check_output h rpm_query) as [out | e]; simpl.
  - destruct (bool_decide (Py.strip out = "")) eqn:Hblank.
    + apply bool_decide_eq_true in Hblank.
      split; [intros _; right; by exists out | done].
    + apply bool_decide_eq_false in Hblank.
      destruct (extract_main_version (Py.strip out)) as [v | e] eqn:Hx;
        simpl.
      * split; [done |].
        intros [(e & [=] & _) | (out' & [= <-] & Hb)]; done.
      * rewrite bool_decide_eq_false_2
          by (destruct (extract_main_version_raises _ _ Hx) as [-> | ->];
              discriminate).
        split; [done |].
        intros [(e' & [=] & _) | (out' & [= <-] & Hb)]; done.
  - destruct (bool_decide (exn_cls e = CalledProcessError)) eqn:Hcls.
    + apply bool_decide_eq_true in Hcls.
      split; [intros _; left; by exists e | done].
    + apply bool_decide_eq_false in Hcls.
      split; [done |].
      intros [(e' & [= <-] & Hc) | (out & [=] & _)]; done.
Qed.

(** ** The distribution detector *)

(** X9.  The distribution detector keeps the first two components of the
    metadata's version and nothing else: a version without a dot gets the
    minor "0", and whatever follows a second dot is dropped.  The name is
    passed on as it is. *)
Theorem get_linux_distribution_components (h : host)
    (major minor rest : string) :
  has_char "." major = false -> has_char "." minor = false ->
  (distro_version_best h = major ->
   get_linux_distribution h = (distro_name_ h, major +:+ ".0")) /\
  (distro_version_best h = major +:+ "." +:+ minor +:+ "." +:+ rest ->
   get_linux_distribution h = (distro_name_ h, major +:+ "." +:+ minor)).
Proof.
  intros Hmajor Hminor. unfold get_linux_distribution, main_version_of.
  split; intros ->.
  - by rewrite (split_no_sep _ _ Hmajor).
  - change ("." +:+ minor +:+ "." +:+ rest)
      with (String "." (minor +:+ String "." rest)).
    rewrite (split_app _ _ _ Hmajor), (split_app _ _ _ Hminor). simpl.
    replace (1 <? _) with true by (symmetry; apply Z.ltb_lt; lia).
    reflexivity.
Qed.

Lemma get_linux_distribution_components_witness :
  get_linux_distribution (host_on "Ubuntu" "22") = ("Ubuntu", "22" +:+ ".0")
  /\
  get_linux_distribution (host_on "Ubuntu" "22.04.3")
  = ("Ubuntu", "22" +:+ "." +:+ "04").
Proof.
  destruct (get_linux_distribution_components (host_on "Ubuntu" "22")
              "22" "04" "3" eq_refl eq_refl) as [Hshort _].
  destruct (get_linux_distribution_components (host_on "Ubuntu" "22.04.3")
              "22" "04" "3" eq_refl eq_refl) as [_ Hlong].
  split; [exact (Hshort eq_refl) | exact (Hlong eq_refl)].
Defined.

(** X10.  The version the distribution detector returns is always a
    two-part version, whatever the metadata holds (also for an empty
    version string), and normalizing it again changes nothing. *)
Theorem get_linux_distribution_two_part (h : host) :
  is_major_minor (get_linux_distribution h).2 /\
  main_version_of (get_linux_distribution h).2 = (get_linux_distribution h).2.
Proof.
  unfold get_linux_distribution. simpl.
  pose proof (main_version_of_is_major_minor (distro_version_best h)) as Hmm.
  split; [exact Hmm |].
  destruct Hmm as (major & minor & Hmajor & Hminor & ->).
  by apply main_version_of_fixed.
Qed.

(** ** The service check *)

Lemma check_psmpsrv_returns (h : host) (m m' : gmap string string)
    (w w' : world) :
  check_psmpsrv h m w = (w', Ret m') ->
  w' = w /\
  (m' = <["psmpsrv" := "Running and communicating with Vault"]> m \/
   m' = <["psmpsrv" := "Running but not communicating with Vault"]> m \/
   m' = <["psmpsrv" := "Inactive"]> m).
Proof.
  unfold check_psmpsrv, try_except, bind, lift, ret.
  destruct (check_output h "systemctl status psmpsrv") as [text | e]; simpl.
  - destruct (Py.contains text "Active: active").
    + unfold read_text.
      destruct (io_fault h (Open PSMPConsole_log)) as [e |]; simpl;
        [destruct (bool_decide _); [intros [= <- <-]; auto | done] |].
      destruct (fs w !! PSMPConsole_log) as [[log |] |];
        [| done | by destruct (_ || _)].
      simpl.
      destruct (Py.contains _ "is up and working with Vault");
        intros [= <- <-]; auto.
    + destruct (Py.contains text "Active: inactive");
        intros [= <- <-]; auto.
  - destruct (bool_decide (exn_cls e = CalledProcessError)); [| done].
    intros [= <- <-]; auto.
Qed.

Lemma check_sshd_returns_value (h : host) (m m' : gmap string string)
    (w w' : world) :
  check_sshd h m w = (w', Ret m') ->
  m' = <["sshd" := "Running"]> m \/ m' = <["sshd" := "Inactive"]> m.
Proof.
  unfold check_sshd, try_except, bind, lift, ret.
  destruct (check_output h "systemctl status sshd") as [text | e]; simpl.
  - destruct (Py.contains text "Active: active");
      [| destruct (Py.contains text "Active: inactive")];
      intros [= <- <-]; auto.
  - destruct (bool_decide (exn_cls e = CalledProcessError)); [| done].
    intros [= <- <-]; auto.
Qed.

(** X11.  A mapping the service check returns has exactly the two keys
    "psmpsrv" and "sshd", the first with one of three texts and the
    second with "Running" or "Inactive"; so the default 'Unavailable' of
    the entry point's lookups is never printed.  The check prints
    nothing and changes nothing. *)
Theorem check_services_status_mapping (h : host) (w w' : world)
    (m : gmap string string) :
  check_services_status h w = (w', Ret m) ->
  w' = w /\
  dom m = {[ "psmpsrv"; "sshd" ]} /\
  get_status m "psmpsrv"
    ∈ [ "Running and communicating with Vault";
        "Running but not communicating with Vault"; "Inactive" ] /\
  get_status m "sshd" ∈ [ "Running"; "Inactive" ].
Proof.
  rewrite check_services_status_unfold.
  destruct (check_psmpsrv h ∅ w) as [w1 [m1 | e]] eqn:Hp; [| done].
  destruct (check_sshd h m1 w1) as [w2 [m2 | e]] eqn:Hs; [| done].
  intros [= <- <-].
  apply check_psmpsrv_returns in Hp as [-> Hp].
  pose proof (check_sshd_returns_value _ _ _ _ _ Hs) as Hv.
  apply check_sshd_returns in Hs as [-> _].
  split; [done |]. unfold get_status.
  destruct Hp as [-> | [-> | ->]], Hv as [-> | ->];
    (split; [by rewrite !dom_insert_L, dom_empty_L; set_solver |]);
    rewrite lookup_insert_ne, !lookup_insert_eq by done; simpl;
    split; set_solver.
Qed.

Lemma check_services_status_mapping_witness :
  get_status
    (<["sshd" := "Running"]>
       (<["psmpsrv" := "Running and communicating with Vault"]> ∅)) "sshd"
    ∈ [ "Running"; "Inactive" ].
Proof.
  apply (check_services_status_mapping healthy_host healthy_world
           healthy_world).
  vm_compute. reflexivity.
Defined.

Lemma read_text_world {h : host} (path : string) (w w' : world)
    (r : outcome string) :
  read_text h path w = (w', r) -> w' = w.
Proof.
  unfold read_text.
  destruct (io_fault h (Open path)); [by intros [= <-] |].
  destruct (fs w !! path) as [[] |]; try (by intros [= <-]).
  destruct (existsb _ _); by intros [= <-].
Qed.

(** X12.  When the check returns, the agent's service is entered as
    "Running and communicating with Vault" exactly when the service
    manager's text holds "Active: active" and the agent's log could be
    read and holds the marker "is up and working with Vault". *)
Theorem check_services_status_connected (h : host) (w w' : world)
    (m : gmap string string) :
  check_services_status h w = (w', Ret m) ->
  (m !! "psmpsrv" = Some "Running and communicating with Vault" <->
   exists text log,
     check_output h status_psmpsrv = Ret text /\
     Py.contains text "Active: active" = true /\
     read_text h PSMPConsole_log w = (w, Ret log) /\
     Py.contains log "is up and working with Vault" = true).
Proof.
  rewrite check_services_status_unfold.
  destruct (check_psmpsrv h ∅ w) as [w1 [m1 | e]] eqn:Hp; [| done].
  destruct (check_sshd h m1 w1) as [w2 [m2 | e]] eqn:Hs; [| done].
  intros [= <- <-].
  apply check_sshd_returns in Hs as [-> [status ->]].
  rewrite lookup_insert_ne by done.
  revert Hp. unfold check_psmpsrv, try_except, bind, lift, ret.
  fold status_psmpsrv.
  destruct (check_output h status_psmpsrv) as [text | e]; simpl.
  - destruct (Py.contains text "Active: active") eqn:Hact.
    + destruct (read_text h PSMPConsole_log w) as [w0 r] eqn:Hread.
      pose proof (read_text_world _ _ _ _ Hread) as ->.
      destruct r as [log | e]; simpl.
      * destruct (Py.contains log "is up and working with Vault") eqn:Hmark;
          intros [= <- <-]; rewrite lookup_insert_eq.
        -- split; [intros _; by exists text, log | done].
        -- split; [done |].
           intros (text' & log' & [= <-] & _ & [= <-] & Hm). congruence.
      * destruct (bool_decide _); [| done].
        intros [= <- <-]. rewrite lookup_insert_eq.
        split; [done |]. by intros (text' & log' & _ & _ & [=] & _).
    + destruct (Py.contains text "Active: inactive");
        intros [= <- <-]; rewrite lookup_insert_eq;
        (split; [done |]);
        intros (text' & log' & [= <-] & Ha & _); congruence.
  - destruct (bool_decide (exn_cls e = CalledProcessError)); [| done].
    intros [= <- <-]. rewrite lookup_insert_eq.
    split; [done |]. by intros (text' & log' & [=] & _).
Qed.

Lemma check_services_status_connected_witness :
  exists text log,
    check_output healthy_host status_psmpsrv = Ret text /\
    Py.contains text "Active: active" = true /\
    read_text healthy_host PSMPConsole_log healthy_world
    = (healthy_world, Ret log) /\
    Py.contains log "is up and working with Vault" = true.
Proof.
  apply (check_services_status_connected healthy_host healthy_world
           healthy_world
           (<["sshd" := "Running"]>
              (<["psmpsrv" := "Running and communicating with Vault"]> ∅)));
    vm_compute; reflexivity.
Defined.

(** ** The OpenSSH version check *)

(** X13.  What the search for OpenSSH_<major>.<minor> returns is in the
    text: the text holds "OpenSSH_", then the first group, a dot and the
    second group; both groups are non-empty runs of digits, and the
    second one is not followed by a further digit. *)
Theorem re_search_sound (s major minor : string) :
  re_search s = Some (major, minor) ->
  exists pre post,
    s = pre +:+ "OpenSSH_" +:+ major +:+ "." +:+ minor +:+ post /\
    major <> "" /\ minor <> "" /\
    all_digits major = true /\ all_digits minor = true /\
    no_digit_ahead post = true.
Proof.
  induction s as [|c s IH]; [done |].
  rewrite re_search_cons.
  destruct (match_at (String c s)) as [g |] eqn:Hm.
  - intros [= ->]. apply match_at_sound in Hm as (post & H).
    by exists "", post.
  - intros (pre & post & -> & H)%IH. by exists (String c pre), post.
Qed.

Lemma re_search_sound_witness :
  exists pre post,
    "ssh: OpenSSH_8.9p1 Ubuntu"
    = pre +:+ "OpenSSH_" +:+ "8" +:+ "." +:+ "9" +:+ post /\
    "8" <> "" /\ "9" <> "" /\
    all_digits "8" = true /\ all_digits "9" = true /\
    no_digit_ahead post = true.
Proof.
  apply (re_search_sound "ssh: OpenSSH_8.9p1 Ubuntu" "8" "9"). reflexivity.
Defined.

(** X14.  An output that begins with the client's banner gives the
    banner's version: when the output is "OpenSSH_", a non-empty run of
    digits, a dot, a non-empty run of digits and a rest that does not go
    on with a digit, [get_openssh_version] returns the number the two
    runs spell. *)
Theorem get_openssh_version_banner (h : host) (w : world)
    (major minor rest : string) :
  check_output h ssh_V
  = Ret ("OpenSSH_" +:+ major +:+ "." +:+ minor +:+ rest) ->
  major <> "" -> minor <> "" ->
  all_digits major = true -> all_digits minor = true ->
  no_digit_ahead rest = true ->
  get_openssh_version h w = (w, Ret (Some (float_of_group (major, minor)))).
Proof.
  intros Hout Hmajor Hminor Hd1 Hd2 Hrest.
  apply (get_openssh_version_found h w _ _ Hout).
  assert (Hm : match_at ("OpenSSH_" +:+ major +:+ "." +:+ minor +:+ rest)
               = Some (major, minor)).
  { unfold match_at.
    assert (Hpre : removeprefix "OpenSSH_"
                     ("OpenSSH_" +:+ major +:+ "." +:+ minor +:+ rest)
                   = Some (major +:+ "." +:+ minor +:+ rest))
      by (by apply removeprefix_spec).
    rewrite Hpre. cbv zeta.
    destruct (digit_run_app major ("." +:+ minor +:+ rest) Hd1 eq_refl)
      as [Hrun1 Hdrop1].
    destruct (digit_run_app minor rest Hd2 Hrest) as [Hrun2 _].
    rewrite Hrun1. destruct major as [|c1 major']; [done |].
    rewrite Hdrop1.
    change ("." +:+ minor +:+ rest) with (String "." (minor +:+ rest)).
    cbv iota. rewrite Hrun2. by destruct minor. }
  change ("OpenSSH_" +:+ major +:+ "." +:+ minor +:+ rest)
    with (String "O" ("penSSH_" +:+ major +:+ "." +:+ minor +:+ rest)) in *.
  by rewrite re_search_cons, Hm.
Qed.

Lemma get_openssh_version_banner_witness :
  get_openssh_version healthy_host healthy_world
  = (healthy_world, Ret (Some (float_of_group ("8", "9")))).
Proof.
  apply (get_openssh_version_banner healthy_host healthy_world
           "8" "9" "p1, OpenSSL 3.0.2"); done.
Defined.

Lemma get_openssh_version_world (h : host) (w w' : world)
    (r : outcome (option spec_float)) :
  get_openssh_version h w = (w', r) -> w' = w.
Proof.
  unfold get_openssh_version, try_except, bind, lift, ret.
  destruct (check_output h "ssh -V") as [out | e]; simpl.
  - destruct (re_search out); by intros [= <-].
  - destruct (bool_decide _); by intros [= <-].
Qed.

(** X15.  In a result of the OpenSSH check the flag and the message go
    together: the message is empty exactly when the check succeeded, a
    success carries a version that is at least 7.7, and a result without
    a version is a failure.  So the entry point, which prints the message
    of a failure, never prints an empty line for one. *)
Theorem check_openssh_version_result (h : host) (w w' : world)
    (success : bool) (message : string) (ssh_version : option spec_float) :
  check_openssh_version h w = (w', Ret (success, message, ssh_version)) ->
  w' = w /\
  (success = true <-> message = "") /\
  (success = true ->
   exists v, ssh_version = Some v /\ SFleb lit_7_7 v = true) /\
  (ssh_version = None -> success = false).
Proof.
  unfold check_openssh_version, try_except, bind.
  destruct (get_openssh_version h w) as [w0 r] eqn:Hget.
  apply get_openssh_version_world in Hget as ->.
  destruct r as [[v |] | e]; simpl.
  - destruct (SFleb lit_7_7 v) eqn:Hge; intros [= <- <- <- <-].
    + repeat split; try done. by exists v.
    + repeat split; done.
  - intros [= <- <- <- <-]. repeat split; done.
  - destruct (bool_decide _); [| done].
    intros [= <- <- <- <-]. repeat split; done.
Qed.

Lemma check_openssh_version_result_witness :
  false = true <->
  "[+] OpenSSH version is: 7.6, required version 7.7 and above." = "".
Proof.
  apply (check_openssh_version_result
           (host_answering [] [(ssh_V, "OpenSSH_7.6p1, OpenSSL 1.0.2k-fips")])
           (world_with []) (world_with []) false
           "[+] OpenSSH version is: 7.6, required version 7.7 and above."
           (Some float_7_6)).
  vm_compute. reflexivity.
Defined.

(** X16.  The check handles one failure of the version command, the
    non-zero status.  Any other exception of the call, such as the
    [FileNotFoundError] of a host without the client, passes both
    handlers and leaves the check. *)
Theorem check_openssh_version_propagates (h : host) (w : world) (e : exn) :
  check_output h ssh_V = Raise e ->
  exn_cls e <> CalledProcessError ->
  check_openssh_version h w = (w, Raise e).
Proof.
  intros Hout Hcls.
  unfold check_openssh_version, get_openssh_version, try_except, bind, lift.
  fold ssh_V. rewrite Hout. simpl.
  by rewrite !bool_decide_eq_false_2.
Qed.

Lemma check_openssh_version_propagates_witness :
  check_openssh_version (host_raising no_ssh_client) (world_with [])
  = (world_with [], Raise no_ssh_client).
Proof.
  apply check_openssh_version_propagates; [reflexivity | discriminate].
Defined.

(** ** The configuration audit *)

(** The scan only raises flags: each flag after the scan is the flag
    before it or the test of some line. *)
Lemma scan_lines_flags (lines : list string) (fl : sshd_flags) :
  found_pmsp_auth_block (scan_lines lines fl)
  = found_pmsp_auth_block fl || existsb block_start_line lines /\
  found_allow_user (scan_lines lines fl)
  = found_allow_user fl || existsb allow_user_line lines /\
  found_pubkey_accepted_algorithms (scan_lines lines fl)
  = found_pubkey_accepted_algorithms fl || existsb pubkey_line lines.
Proof.
  revert fl. induction lines as [|line lines IH]; intros fl.
  - simpl. by rewrite !orb_false_r.
  - simpl. destruct (IH (scan_line line fl)) as (-> & -> & ->).
    rewrite !orb_assoc. unfold scan_line.
    fold (block_start_line line). fold (allow_user_line line).
    fold (pubkey_line line).
    destruct (block_start_line line), (allow_user_line line),
      (pubkey_line line), fl as [[] [] []]; done.
Qed.

Lemma existsb_false_iff {A} (f : A -> bool) (l : list A) :
  existsb f l = false <-> forall x, x ∈ l -> f x = false.
Proof.
  induction l as [|a l IH]; simpl.
  - split; [intros _ x Hx; by apply elem_of_nil in Hx | done].
  - rewrite orb_false_iff, IH. split.
    + intros [Ha Hl] x [-> | Hx]%elem_of_cons; auto.
    + intros H. split; [apply H; left | intros x Hx; apply H; by right].
Qed.

(** Which of the three findings are among the lines of a report. *)
Lemma report_lines_members (fl : sshd_flags) :
  (block_not_found ∈ report_lines fl <-> found_pmsp_auth_block fl = false) /\
  (key_auth_advisory ∈ report_lines fl <-> found_allow_user fl = false) /\
  (allow_user_found ∈ report_lines fl <-> found_allow_user fl = true).
Proof.
  unfold report_lines, block_not_found, key_auth_advisory, allow_user_found.
  destruct (found_pmsp_auth_block fl), (found_allow_user fl); simpl;
    rewrite ?elem_of_cons, ?elem_of_nil; intuition congruence.
Qed.

Lemma translate_newlines_idempotent (after_cr : bool) (s : string) :
  Py.translate_newlines false (Py.translate_newlines after_cr s)
  = Py.translate_newlines after_cr s.
Proof.
  revert after_cr. induction s as [|c s IH]; intros after_cr; [reflexivity |].
  simpl. destruct (Ascii.eqb c "013") eqn:Hcr.
  - simpl. by rewrite IH.
  - destruct (Ascii.eqb c "010" && after_cr) eqn:Hlf; [apply IH |].
    simpl. rewrite Hcr, andb_false_r. by rewrite IH.
Qed.

(** The lines of a text that was read are the lines of the file. *)
Lemma readlines_universal_newlines (s : string) :
  Py.readlines (Py.universal_newlines s) = Py.readlines s.
Proof.
  unfold Py.readlines, Py.universal_newlines.
  by rewrite translate_newlines_idempotent.
Qed.

Lemma read_text_file (h : host) (w : world) (path stored : string) :
  io_fault h (Open path) = None ->
  fs w !! path = Some (File stored) ->
  read_text h path w = (w, Ret (Py.universal_newlines stored)).
Proof. intros Hfault Hfile. unfold read_text. by rewrite Hfault, Hfile. Qed.

(** X17.  For a configuration file that can be read the audit returns,
    and what it prints follows the lines of the file, a line ending at a
    line feed, at a carriage return, or at the two in a row: the notice
    that the agent's block is missing appears exactly when no line is
    the block's start marker, and the key-auth advisory appears exactly
    when no line begins, after its white space, with "AllowUser";
    otherwise the AllowUser notice appears in its place. *)
Theorem check_sshd_config_lines (h : host) (w : world) (stored : string) :
  io_fault h (Open sshd_config_path) = None ->
  fs w !! sshd_config_path = Some (File stored) ->
  exists printed,
    check_sshd_config h w = (say printed w, Ret tt) /\
    (block_not_found ∈ printed <->
     forall line, line ∈ Py.readlines stored ->
                  block_start_line line = false) /\
    (key_auth_advisory ∈ printed <->
     forall line, line ∈ Py.readlines stored ->
                  allow_user_line line = false) /\
    (allow_user_found ∈ printed <-> key_auth_advisory ∉ printed).
Proof.
  intros Hfault Hfile.
  pose proof (read_text_file h w _ _ Hfault Hfile) as Hread.
  set (content := Py.universal_newlines stored) in *.
  exists (report_lines (flags_of content)).
  split; [by apply check_sshd_config_prints |].
  destruct (scan_lines_flags (Py.readlines content) no_flags)
    as (Hblock & Hallow & _).
  simpl in Hblock, Hallow. fold (flags_of content) in Hblock, Hallow.
  destruct (report_lines_members (flags_of content)) as (H1 & H2 & H3).
  unfold content in Hblock, Hallow.
  rewrite readlines_universal_newlines in Hblock, Hallow.
  rewrite <- !existsb_false_iff, <- Hblock, <- Hallow, H1, H2, H3.
  split; [done |]. split; [done |].
  by destruct (found_allow_user (flags_of content)).
Qed.

(** A configuration whose comment ends at a carriage return: the
    directive after it is a line of its own. *)
Lemma check_sshd_config_lines_witness :
  exists printed,
    check_sshd_config healthy_host
      (world_with [(sshd_config_path,
                    File ("# managed" +:+ String "013" "AllowUsers root"
                          +:+ String "010" ""))])
    = (say printed
         (world_with [(sshd_config_path,
                       File ("# managed" +:+ String "013" "AllowUsers root"
                             +:+ String "010" ""))]),
       Ret tt) /\
    (block_not_found ∈ printed <->
     forall line,
       line ∈ Py.readlines ("# managed" +:+ String "013" "AllowUsers root"
                            +:+ String "010" "") ->
       block_start_line line = false) /\
    (key_auth_advisory ∈ printed <->
     forall line,
       line ∈ Py.readlines ("# managed" +:+ String "013" "AllowUsers root"
                            +:+ String "010" "") ->
       allow_user_line line = false) /\
    (allow_user_found ∈ printed <-> key_auth_advisory ∉ printed).
Proof.
  apply (check_sshd_config_lines healthy_host
           (world_with [(sshd_config_path,
                         File ("# managed" +:+ String "013" "AllowUsers root"
                               +:+ String "010" ""))]));
    reflexivity.
Defined.

(** X18.  When the configuration file does not exist, and no regular
    file lies on the path to it, the audit prints the one line
    "sshd_config file not found." and returns; none of the three findings
    is printed. *)
Theorem check_sshd_config_missing (h : host) (w : world) :
  io_fault h (Open sshd_config_path) = None ->
  fs w !! sshd_config_path = None ->
  existsb (is_file (fs w)) (ancestors "" sshd_config_path) = false ->
  check_sshd_config h w = (say ["sshd_config file not found."] w, Ret tt).
Proof.
  intros Hfault Hnone Hdirs.
  unfold check_sshd_config, try_except, bind, read_text.
  by rewrite Hfault, Hnone, Hdirs.
Qed.

Lemma check_sshd_config_missing_witness :
  check_sshd_config healthy_host (world_with [("/etc/ssh", Dir)])
  = (say ["sshd_config file not found."] (world_with [("/etc/ssh", Dir)]),
     Ret tt).
Proof.
  apply check_sshd_config_missing; reflexivity.
Defined.

(** X19.  The audit handles the missing file only: when opening or
    reading the configuration raises anything else (a refused
    permission, a directory in the file's place), the exception leaves
    the audit and nothing is printed. *)
Theorem check_sshd_config_propagates (h : host) (w : world) (e : exn) :
  read_text h sshd_config_path w = (w, Raise e) ->
  exn_cls e <> FileNotFoundError ->
  check_sshd_config h w = (w, Raise e).
Proof.
  intros Hread Hcls.
  unfold check_sshd_config, try_except, bind. rewrite Hread. simpl.
  by rewrite bool_decide_eq_false_2.
Qed.

Lemma check_sshd_config_propagates_witness :
  check_sshd_config host_denying_config healthy_world
  = (healthy_world,
     Raise (Exn PermissionError
              "[Errno 13] Permission denied: '/etc/ssh/sshd_config'")) /\
  check_sshd_config healthy_host (world_with [(sshd_config_path, Dir)])
  = (world_with [(sshd_config_path, Dir)],
     Raise (Exn IsADirectoryError
              "[Errno 21] Is a directory: '/etc/ssh/sshd_config'")) /\
  check_sshd_config healthy_host (world_with [("/etc/ssh", File "")])
  = (world_with [("/etc/ssh", File "")],
     Raise (Exn NotADirectoryError
              "[Errno 20] Not a directory: '/etc/ssh/sshd_config'")).
Proof.
  split; [| split]; apply check_sshd_config_propagates;
    first [reflexivity | discriminate].
Defined.

(** ** What the log collection touches *)

Section Confined.

Context {region : string -> bool} {zip : string}.

Lemma confined_ret {A} (a : A) : confined region zip (ret a).
Proof.
  intros w w' r [= <- <-]. repeat split; try done.
  exists []. by rewrite app_nil_r.
Qed.

Lemma confined_print (line : string) : confined region zip (print line).
Proof.
  intros w w' r [= <- <-]. repeat split; try done. by exists [line].
Qed.

Lemma confined_bind {A B} (m : io A) (k : A -> io B) :
  confined region zip m -> (forall a, confined region zip (k a)) ->
  confined region zip (bind m k).
Proof.
  intros Hm Hk w w' r. unfold bind.
  destruct (m w) as [w1 [a | e]] eqn:Hmw.
  - intros Hkw. destruct (Hm _ _ _ Hmw) as (Hf1 & Ha1 & out1 & Ho1).
    destruct (Hk a _ _ _ Hkw) as (Hf2 & Ha2 & out2 & Ho2).
    split; [intros p Hp; by rewrite Hf2, Hf1 |].
    split; [intros n Hn; by rewrite Ha2, Ha1 |].
    exists (out1 ++ out2). by rewrite Ho2, Ho1, app_assoc.
  - intros [= <- <-]. exact (Hm _ _ _ Hmw).
Qed.

Lemma confined_try_except {A} (body : io A) (clause : except_clause)
    (handler : exn -> io A) :
  confined region zip body -> (forall e, confined region zip (handler e)) ->
  confined region zip (try_except body clause handler).
Proof.
  intros Hb Hh w w' r. unfold try_except.
  destruct (body w) as [w1 [a | e]] eqn:Hbw.
  - intros [= <- <-]. exact (Hb _ _ _ Hbw).
  - destruct (catches clause e); [| intros [= <- <-]; exact (Hb _ _ _ Hbw)].
    intros Hhw. destruct (Hb _ _ _ Hbw) as (Hf1 & Ha1 & out1 & Ho1).
    destruct (Hh e _ _ _ Hhw) as (Hf2 & Ha2 & out2 & Ho2).
    split; [intros p Hp; by rewrite Hf2, Hf1 |].
    split; [intros n Hn; by rewrite Ha2, Ha1 |].
    exists (out1 ++ out2). by rewrite Ho2, Ho1, app_assoc.
Qed.

Lemma confined_try_finally {A} (body : io A) (cleanup : io unit) :
  confined region zip body -> confined region zip cleanup ->
  confined region zip (try_finally body cleanup).
Proof.
  intros Hb Hc w w' r. unfold try_finally.
  destruct (body w) as [w1 r1] eqn:Hbw.
  destruct (cleanup w1) as [w2 r2] eqn:Hcw.
  destruct (Hb _ _ _ Hbw) as (Hf1 & Ha1 & out1 & Ho1).
  destruct (Hc _ _ _ Hcw) as (Hf2 & Ha2 & out2 & Ho2).
  assert (Hall :
    (forall p, region p = false -> fs w2 !! p = fs w !! p) /\
    (forall name, name <> zip -> archives w2 !! name = archives w !! name) /\
    (exists out, stdout w2 = stdout w ++ out)).
  { split; [intros p Hp; by rewrite Hf2, Hf1 |].
    split; [intros n Hn; by rewrite Ha2, Ha1 |].
    exists (out1 ++ out2). by rewrite Ho2, Ho1, app_assoc. }
  destruct r2; intros [= <- <-]; exact Hall.
Qed.

End Confined.

(** A change of the tree alone, at paths of the region. *)
Lemma confined_set_fs (region : string -> bool) (zip : string)
    (w : world) (f : gmap string node) :
  (forall p, region p = false -> f !! p = fs w !! p) ->
  (forall p, region p = false -> fs (set_fs f w) !! p = fs w !! p) /\
  (forall name, name <> zip ->
                archives (set_fs f w) !! name = archives w !! name) /\
  (exists out, stdout (set_fs f w) = stdout w ++ out).
Proof.
  intros Hf. repeat split; try done. exists []. simpl. by rewrite app_nil_r.
Qed.

Lemma confined_same (region : string -> bool) (zip : string) (w : world) :
  (forall p, region p = false -> fs w !! p = fs w !! p) /\
  (forall name, name <> zip -> archives w !! name = archives w !! name) /\
  (exists out, stdout w = stdout w ++ out).
Proof. repeat split; try done. exists []. by rewrite app_nil_r. Qed.

Lemma lookup_ensure_dirs (l : list string) (f : gmap string node)
    (p : string) :
  p ∉ l -> foldr ensure_dir f l !! p = f !! p.
Proof.
  induction l as [|a l IH]; [done |].
  intros [Hne Hl]%not_elem_of_cons. simpl. unfold ensure_dir at 1.
  destruct (foldr ensure_dir f l !! a); [by apply IH |].
  rewrite lookup_insert_ne by done. by apply IH.
Qed.

Lemma confined_makedirs (h : host) (zip : string) :
  confined staging_region zip (makedirs h temp_folder).
Proof.
  intros w w' r. unfold makedirs.
  destruct (io_fault h (Makedirs temp_folder));
    [intros [= <- <-]; apply confined_same |].
  destruct (is_file (fs w) temp_folder);
    [intros [= <- <-]; apply confined_same |].
  destruct (existsb _ _);
    intros [= <- <-]; [apply confined_same |].
  apply confined_set_fs.
  intros p Hp.
  apply (lookup_ensure_dirs (temp_folder :: ancestors "" temp_folder)
           (fs w) p).
  unfold staging_region in Hp. apply orb_false_iff in Hp as [Hin Hanc].
  apply bool_decide_eq_false in Hanc.
  intros [-> | H]%elem_of_cons; [| done].
  unfold inside in Hin. by rewrite String.eqb_refl in Hin.
Qed.

Lemma moved_entries_inside (src dst p : string) (f : gmap string node) :
  p ∈ (moved_entries src dst f).*1 -> inside dst p = true.
Proof.
  intros [[q n] [-> Hin]]%list_elem_of_fmap.
  unfold moved_entries in Hin.
  apply list_elem_of_omap in Hin as [[q0 n0] [_ Hq]].
  destruct (below src q0) as [rel |]; [| done].
  injection Hq as <- <-. simpl. apply inside_spec. right. by exists rel.
Qed.

Lemma confined_copytree (h : host) (zip src dst : string) :
  inside temp_folder dst = true ->
  confined (inside temp_folder) zip (copytree h src dst).
Proof.
  intros Hdst w w' r. unfold copytree.
  destruct (io_fault h (Copytree src dst));
    [intros [= <- <-]; apply confined_same |].
  destruct (fs w !! dst);
    intros [= <- <-]; [apply confined_same |].
  apply confined_set_fs.
  intros p Hp. rewrite lookup_union_r.
  - apply lookup_insert_ne. intros <-. congruence.
  - apply not_elem_of_list_to_map_1. intros Hin%moved_entries_inside.
    pose proof (inside_trans _ _ _ Hdst Hin). congruence.
Qed.

Lemma startswith_has_char (c : ascii) (s : string) :
  has_char c s = false -> Py.startswith s (String c "") = false.
Proof.
  destruct s as [|x s]; [done |]. simpl.
  intros [Hx _]%orb_false_iff. rewrite Ascii.eqb_sym. by rewrite Hx.
Qed.

Lemma basename_no_slash (p : string) : has_char "/" (basename p) = false.
Proof.
  unfold basename.
  pose proof (split_parts_no_sep "/" p) as Hall.
  induction Hall as [|part parts Hpart Hparts IH]; [done |].
  destruct parts; [done | exact IH].
Qed.

(** A source lands inside the staging directory. *)
Lemma staged_inside (folder : string) :
  inside temp_folder (path_join temp_folder (basename folder)) = true.
Proof.
  unfold path_join.
  rewrite (startswith_has_char _ _ (basename_no_slash folder)).
  apply inside_spec. right. by exists (basename folder).
Qed.

Lemma confined_copy (h : host) (zip src : string) :
  confined (inside temp_folder) zip (copy h src temp_folder).
Proof.
  intros w w' r. unfold copy.
  destruct (io_fault h (Copy src temp_folder));
    [intros [= <- <-]; apply confined_same |].
  destruct (fs w !! src) as [[content |] |];
    try (intros [= <- <-]; apply confined_same).
  set (target := if isdir (fs w) temp_folder
                 then path_join temp_folder (basename src)
                 else temp_folder).
  assert (Htarget : inside temp_folder target = true).
  { unfold target. destruct (isdir (fs w) temp_folder);
      [apply staged_inside | by apply inside_spec; left]. }
  destruct (isdir (fs w) target);
    intros [= <- <-]; [apply confined_same |].
  apply confined_set_fs.
  intros p Hp. apply lookup_insert_ne. intros <-. congruence.
Qed.

Lemma confined_for_folder (h : host) (zip : string) (folders : list string) :
  confined (inside temp_folder) zip (for_folder h folders).
Proof.
  induction folders as [|folder folders IH]; [apply confined_ret |].
  simpl. apply confined_bind; [| intros _; exact IH].
  intros w w' r. unfold collect_folder.
  destruct (bool_decide _); [| apply confined_print].
  destruct (isdir (fs w) folder);
    [apply confined_copytree, staged_inside | apply confined_copy].
Qed.

Lemma confined_write_zip (h : host) (zip root : string) :
  confined (fun p => String.eqb p (path_join (getcwd h) zip)) zip
    (write_zip h zip root).
Proof.
  intros w w' r. unfold write_zip.
  destruct (io_fault h (ZipOpen zip));
    [intros [= <- <-]; apply confined_same |].
  destruct (io_fault h (ZipWrite zip)); intros [= <- <-].
  - apply confined_set_fs. intros p Hp%String.eqb_neq.
    by rewrite lookup_insert_ne.
  - repeat split; simpl.
    + intros p Hp%String.eqb_neq. by rewrite lookup_insert_ne.
    + intros name Hne. by rewrite lookup_insert_ne.
    + exists []. by rewrite app_nil_r.
Qed.

Lemma confined_rmtree (h : host) (zip root : string) :
  confined (inside root) zip (rmtree_ignore_errors h root).
Proof.
  intros w w' r [= <- <-].
  apply confined_set_fs.
  intros p Hp. apply option_eq. intros n.
  rewrite map_lookup_filter_Some. simpl. rewrite Hp. simpl. tauto.
Qed.

Lemma confined_weaken {A} (region region' : string -> bool) (zip : string)
    (m : io A) :
  (forall p, region' p = false -> region p = false) ->
  confined region zip m -> confined region' zip m.
Proof.
  intros Hsub Hm w w' r Hrun.
  destruct (Hm _ _ _ Hrun) as (Hf & Ha & Ho).
  split; [intros p Hp; apply Hf; by apply Hsub | done].
Qed.

(** X20.  The log collection keeps to its own ground, on every path and
    whether it returns or raises: apart from the staging directory (and
    the directories above it, which it creates when they are missing)
    and from the archive file PSMP_Logs_<date>.zip of the current
    directory, every path of the tree is as it was, so a log source that
    is not that file is neither changed nor removed; no archive other
    than PSMP_Logs_<date>.zip is completed; and standard output is only
    added to. *)
Theorem logs_collect_confined (h : host) (w w' : world) (r : outcome unit) :
  logs_collect h w = (w', r) ->
  (forall p, inside temp_folder p = false -> p <> "/tmp" ->
             p <> zip_path h ->
             fs w' !! p = fs w !! p) /\
  (forall name, name <> zip_name h ->
                archives w' !! name = archives w !! name) /\
  (exists out, stdout w' = stdout w ++ out).
Proof.
  intros Hrun.
  assert (Hc : confined (collection_region h) (zip_name h) (logs_collect h)).
  { assert (Hstaging : forall p, collection_region h p = false ->
                                 staging_region p = false)
      by (intros p [Hp _]%orb_false_iff; exact Hp).
    assert (Htemp : forall p, collection_region h p = false ->
                              inside temp_folder p = false)
      by (intros p [Hp _]%Hstaging%orb_false_iff; exact Hp).
    assert (Hzip : forall p, collection_region h p = false ->
                             String.eqb p (zip_path h) = false)
      by (intros p [_ Hp]%orb_false_iff; exact Hp).
    unfold logs_collect.
    apply confined_bind;
      [apply (confined_weaken staging_region);
         [exact Hstaging | apply confined_makedirs] | intros _].
    apply confined_try_finally;
      [| apply (confined_weaken (inside temp_folder));
           [exact Htemp | apply confined_rmtree]].
    apply confined_try_except; [| intros e; apply confined_print].
    unfold copy_and_zip. fold (zip_name h).
    apply confined_bind;
      [apply (confined_weaken (inside temp_folder));
         [exact Htemp | apply confined_for_folder] | intros _].
    apply confined_bind;
      [apply (confined_weaken
                (fun p => String.eqb p (path_join (getcwd h) (zip_name h))));
         [exact Hzip | apply confined_write_zip] | intros _].
    apply confined_print. }
  destruct (Hc _ _ _ Hrun) as (Hf & Ha & Ho).
  split; [| done]. intros p Hp Hne Hnz. apply Hf.
  unfold collection_region, staging_region. rewrite Hp. simpl.
  apply orb_false_iff. split; [| by apply String.eqb_neq].
  apply bool_decide_eq_false. intros Hin. apply Hne.
  by apply list_elem_of_singleton in Hin.
Qed.

Lemma logs_collect_confined_witness :
  fs (logs_collect disk_full_host two_logs).1 !! "/var/log/secure"
  = fs two_logs !! "/var/log/secure".
Proof.
  apply (logs_collect_confined disk_full_host two_logs _
           (logs_collect disk_full_host two_logs).2);
    [by destruct (logs_collect disk_full_host two_logs) | done | done | done].
Defined.

Lemma makedirs_raise_world (h : host) (path : string) (w w' : world)
    (e : exn) :
  makedirs h path w = (w', Raise e) -> w' = w.
Proof.
  unfold makedirs.
  destruct (io_fault h (Makedirs path)); [by intros [= <-] |].
  destruct (is_file (fs w) path); [by intros [= <-] |].
  by destruct (existsb _ _); intros [= <-].
Qed.

(** X21.  The staging directory is made before the guarded block: when
    making it raises (a regular file in its place, a refused permission)
    the exception leaves [logs_collect], nothing is printed, nothing is
    copied and no clean-up runs; the world is as it was. *)
Theorem logs_collect_makedirs_raises (h : host) (w w1 : world) (e : exn) :
  makedirs h temp_folder w = (w1, Raise e) ->
  logs_collect h w = (w, Raise e).
Proof.
  intros Hmk. pose proof (makedirs_raise_world _ _ _ _ _ Hmk) as ->.
  unfold logs_collect, bind. by rewrite Hmk.
Qed.

Lemma logs_collect_makedirs_raises_witness :
  logs_collect logs_host (world_with [(temp_folder, File "")])
  = (world_with [(temp_folder, File "")],
     Raise (Exn FileExistsError "[Errno 17] File exists: '/tmp/psmp_logs'")).
Proof.
  apply (logs_collect_makedirs_raises logs_host
           (world_with [(temp_folder, File "")])
           (world_with [(temp_folder, File "")])).
  vm_compute. reflexivity.
Defined.

(** ** The entry point *)

Lemma reads_only_report (h : host) (psmp_versions : json)
    (psmp_version : string) :
  reads_only (report h psmp_versions psmp_version).
Proof.
  unfold report, check_services_status, check_psmpsrv, check_sshd,
    check_openssh_version, get_openssh_version, check_sshd_config,
    report_flags.
  reads_only_auto.
Qed.

Lemma reads_only_diagnostics (h : host) : reads_only (diagnostics h).
Proof.
  unfold diagnostics. apply reads_only_bind; [apply reads_only_lift |].
  intros psmp_versions.
  apply reads_only_bind; [apply reads_only_get_installed_psmp_version |].
  intros psmp_version. destruct (falsy psmp_version).
  - apply reads_only_bind; [apply reads_only_print | intros _].
    apply reads_only_ret.
  - apply reads_only_bind; [apply reads_only_report | intros _].
    apply reads_only_ret.
Qed.

(** X22.  A diagnostic run reads and prints and does nothing else:
    without the argument "logs" the file tree and the archives are after
    the run what they were before it, on every path, also when a check
    raises, and standard output is only added to. *)
Theorem main_diagnostics_read_only (h : host) (w : world) :
  logs_mode h = false ->
  fs (main h w).1 = fs w /\
  archives (main h w).1 = archives w /\
  exists out, stdout (main h w).1 = stdout w ++ out.
Proof.
  intros Hmode. unfold main, script. rewrite Hmode.
  destruct (reads_only_diagnostics h w) as (out & r & Hall).
  specialize (Hall []). rewrite say_nil in Hall. rewrite Hall.
  destruct r; simpl; (split; [done |]); (split; [done |]); by exists out.
Qed.

Lemma main_diagnostics_read_only_witness :
  fs (main healthy_host healthy_world).1 = fs healthy_world.
Proof.
  apply (main_diagnostics_read_only healthy_host healthy_world).
  reflexivity.
Defined.

Lemma get_installed_world (h : host) (w w' : world)
    (r : outcome (option string)) :
  get_installed_psmp_version h w = (w', r) -> w' = w.
Proof.
  unfold get_installed_psmp_version, try_except, bind, lift, ret.
  destruct (check_output h "rpm -qa | grep -i cark") as [out | e]; simpl.
  - destruct (bool_decide (Py.strip out = "")); [by intros [= <-] |].
    destruct (extract_main_version (Py.strip out)); simpl;
      [by intros [= <-] | destruct (bool_decide _); by intros [= <-]].
  - destruct (bool_decide _); by intros [= <-].
Qed.

Lemma ends_with_1 (P : Prop) (w' : world) :
  exists (w'' : world) (r : outcome Z),
    (w', Ret 1) = (w'', r) /\
    (r = Ret 1 \/ (exists e, r = Raise e) \/ (r = Ret 0 /\ P)).
Proof. exists w', (Ret 1). split; [done | by left]. Qed.

Lemma ends_raising (P : Prop) (w' : world) (e : exn) :
  exists (w'' : world) (r : outcome Z),
    (w', Raise e) = (w'', r) /\
    (r = Ret 1 \/ (exists e, r = Raise e) \/ (r = Ret 0 /\ P)).
Proof. exists w', (Raise e). split; [done | right; left; by exists e]. Qed.

(** How the script can end: with the value 1, with an exception, or
    with the value 0 after the matrix was loaded and a version found. *)
Lemma script_ends (h : host) (w : world) :
  exists w' r,
    script h w = (w', r) /\
    (r = Ret 1 \/ (exists e, r = Raise e) \/
     (r = Ret 0 /\ logs_mode h = false /\
      (exists psmp_versions, versions_json h = Ret psmp_versions) /\
      (exists psmp_version,
          get_installed_psmp_version h w = (w, Ret (Some psmp_version))))).
Proof.
  pose proof ends_with_1 as Hone. pose proof ends_raising as Hraise.
  unfold script. destruct (logs_mode h).
  - unfold bind, ret.
    destruct (logs_collect h w) as [w1 [[] | e]]; [apply Hone | apply Hraise].
  - unfold diagnostics, bind, lift.
    destruct (versions_json h) as [psmp_versions | e]; [| apply Hraise].
    destruct (get_installed_psmp_version h w) as [w1 r] eqn:Hget.
    apply get_installed_world in Hget as Hw. subst w1.
    destruct r as [psmp_version | e]; [| apply Hraise].
    destruct (falsy psmp_version) eqn:Hfalsy;
      [unfold print, ret; simpl; apply Hone |].
    destruct psmp_version as [psmp_version |]; [| discriminate Hfalsy].
    unfold ret. simpl default.
    destruct (report h psmp_versions _ w) as [w2 [[] | e]]; [| apply Hraise].
    exists w2, (Ret 0). split; [reflexivity |]. right. right.
    split; [done |]. split; [done |]. split; eauto.
Qed.

(** X23.  The process ends with status 0 or 1 and no other, whatever
    the host; and it ends with status 0 only after a diagnostic run in
    which the matrix was loaded and an installed version was found. *)
Theorem main_status_0_or_1 (h : host) (w : world) :
  (exit_status (main h w).2 = 0 \/ exit_status (main h w).2 = 1) /\
  (exit_status (main h w).2 = 0 ->
   logs_mode h = false /\
   (exists psmp_versions, versions_json h = Ret psmp_versions) /\
   (exists psmp_version,
       get_installed_psmp_version h w = (w, Ret (Some psmp_version)))).
Proof.
  unfold main.
  destruct (script_ends h w)
    as (w' & r & -> & [-> | [[e ->] | (-> & Hrest)]]); simpl.
  - split; [by right | done].
  - split; [by right | done].
  - split; [by left | done].
Qed.

Lemma main_status_0_or_1_witness :
  logs_mode healthy_host = false /\
  (exists psmp_versions, versions_json healthy_host = Ret psmp_versions) /\
  (exists psmp_version,
      get_installed_psmp_version healthy_host healthy_world
      = (healthy_world, Ret (Some psmp_version))).
Proof.
  apply (main_status_0_or_1 healthy_host healthy_world).
  vm_compute. reflexivity.
Defined.





(** X26.  A loaded file that is not of the shape of the data model can
    make the compatibility lookup raise, and the entry point does not
    handle that: when the lookup raises, the run ends with the exception
    uncaught after the two lines that name the agent and the
    distribution, and none of the later checks is made. *)
Theorem main_lookup_raises (h : host) (w : world) (psmp_versions : json)
    (psmp_version : string) (e : exn) :
  logs_mode h = false ->
  versions_json h = Ret psmp_versions ->
  get_installed_psmp_version h w = (w, Ret (Some psmp_version)) ->
  Json.is_supported psmp_versions psmp_version
    (get_linux_distribution h).1 (get_linux_distribution h).2
  = Raise e ->
  main h w
  = (say [ "PSMP version: " +:+ psmp_version;
           "Linux distribution: " +:+ (get_linux_distribution h).1
             +:+ " " +:+ (get_linux_distribution h).2 ] w,
     Uncaught e).
Proof.
  intros Hmode Hm Hv Hsup.
  assert (Hf : falsy (Some psmp_version) = false)
    by (simpl; apply String.eqb_neq; by apply (get_installed_nonempty h w w)).
  unfold main, script. rewrite Hmode.
  unfold diagnostics. unfold bind at 1. unfold lift at 1. rewrite Hm.
  unfold bind at 1. rewrite Hv, Hf. simpl default.
  unfold report.
  destruct (get_linux_distribution h) as [distro_name distro_version].
  simpl in Hsup. unfold bind, print, lift. rewrite Hsup. simpl.
  by rewrite say_say.
Qed.

(** A matrix file whose rule for 14.0 has no list of distributions. *)
Lemma main_lookup_raises_witness :
  main (with_matrix healthy_host (JObject [("14.0", JObject [])]))
    healthy_world
  = (say [ "PSMP version: 14.0"; "Linux distribution: Red Hat 8.6" ]
       healthy_world,
     Uncaught (Exn KeyError "'supported_distributions'")).
Proof.
  apply (main_lookup_raises
           (with_matrix healthy_host (JObject [("14.0", JObject [])]))
           healthy_world (JObject [("14.0", JObject [])]) "14.0");
    vm_compute; reflexivity.
Defined.


(** ** A collection without failures *)










Lemma staging_region_t (p : string) :
  staging_region p = true -> Py.startswith p "/t" = true.
Proof.
  unfold staging_region.
  intros [[-> | [rel ->]]%inside_spec | Hanc%bool_decide_eq_true]%orb_true_iff;
    try done.
  by apply list_elem_of_singleton in Hanc as ->.
Qed.

(** Nothing at or below a source that lies apart is in the ground of the
    collection. *)
Lemma apart_outside (f q : string) :
  apart f = true -> inside f q = true -> staging_region q = false.
Proof.
  intros Hf Hq. destruct (staging_region q) eqn:Hreg; [| done].
  apply staging_region_t in Hreg.
  destruct f as [|a [|b f]]; try done. unfold apart in Hf.
  apply negb_true_iff in Hf.
  apply inside_spec in Hq as [-> | [rel ->]];
    rewrite ?app_cons in Hreg; simpl in Hf, Hreg; congruence.
Qed.

Lemma apart_outside_staging (f q : string) :
  apart f = true -> inside f q = true -> inside temp_folder q = false.
Proof.
  intros Hf Hq. pose proof (apart_outside f q Hf Hq) as Hreg.
  unfold staging_region in Hreg. by apply orb_false_iff in Hreg as [H _].
Qed.














